(** * Shapes2: the per-frame physics core of the bouncing-particle simulation

    A shallow embedding of [utils/math.ts], of the two [Canvas] components'
    [updatePhysics] and of [effectiveSettings] of [App.tsx], and the
    properties of the specification that were checked against it.

    A TypeScript [number] is an IEEE-754 binary64 value.  Two models of the
    code are used:

    - [Binary64]: numbers are the kernel's primitive floats, which are
      binary64, so every operation rounds as the code's does, NaN and the
      infinities are values, and every definition evaluates.  Whatever is
      said about the numbers a tick computes is said on this model.
      [Math.cos] and [Math.sin] are approximated by the host and have no
      primitive counterpart; this model takes the generated vertex loop as
      an argument.
    - [Exact]: numbers are real numbers.  It carries the parts of the code
      that need [Math.cos], [Math.sin], [Math.floor] and [Math.random], and
      is used for properties that do not depend on how the code rounds:
      which branch runs, which fields are written, how many vertices or
      particles are produced, which expression a value is.  The only
      operation of the source that has no real-number value is a quotient
      [0 / 0]; the one place where it can occur is made explicit with
      [option]. *)

From Stdlib Require Import Floats.
From Stdlib Require Import Reals Lra Lia List String PeanoNat Bool.
From stdpp Require Import base list strings pretty.

(** ** The code on real numbers *)

Module Exact.

Local Open Scope R_scope.

(** *** The vertex type of [types.ts] *)

(** Modelled from the spec: [types.ts] is not part of the sources; section 3
    gives [Vector2] as a pair of floats [(x, y)], and the code reads and
    writes exactly these two fields. *)
Record Vector2 : Type := mkV { x : R; y : R }.

Definition origin : Vector2 := mkV 0 0.

(** *** [utils/math.ts], vector operations *)

Definition add (v1 v2 : Vector2) : Vector2 := mkV (x v1 + x v2) (y v1 + y v2).
Definition sub (v1 v2 : Vector2) : Vector2 := mkV (x v1 - x v2) (y v1 - y v2).
Definition mult (v : Vector2) (s : R) : Vector2 := mkV (x v * s) (y v * s).
Definition dot (v1 v2 : Vector2) : R := x v1 * x v2 + y v1 * y v2.
Definition mag (v : Vector2) : R := sqrt (x v * x v + y v * y v).

Definition normalize (v : Vector2) : Vector2 :=
  let m := mag v in
  if Req_dec_T m 0 then mkV 0 0 else mkV (x v / m) (y v / m).

Definition rotatePoint (point center : Vector2) (angle : R) : Vector2 :=
  let c := cos angle in
  let s := sin angle in
  let dx := x point - x center in
  let dy := y point - y center in
  mkV (x center + (dx * c - dy * s)) (y center + (dx * s + dy * c)).

(** The [for (let i = 0; i < sides; i++)] loop pushes one vertex per index;
    vertex counts are the integers the configuration schema asks for. *)
Definition generatePolygon (sides : nat) (radius : R) (center : Vector2)
    (rotation : R) : list Vector2 :=
  List.map (fun i : nat =>
         let angle := (INR i * 2 * PI) / INR sides + rotation in
         mkV (x center + radius * cos angle) (y center + radius * sin angle))
      (seq 0 sides).

Definition generateStar (points : nat) (outerRadius innerRadius : R)
    (center : Vector2) (rotation : R) : list Vector2 :=
  List.map (fun i : nat =>
         let angle := (INR i * PI) / INR points + rotation in
         let radius := if Nat.eqb (i mod 2) 0 then outerRadius else innerRadius in
         mkV (x center + radius * cos angle) (y center + radius * sin angle))
      (seq 0 (points * 2)).

(** The record returned by [distPointToSegment]. *)
Record SegmentHit : Type := mkHit { dist : R; normal : Vector2; closest : Vector2 }.

(** Distance from point P to line segment AB.  When [abLenSq] is zero the
    source divides [0 / 0]: every field of its result is NaN and no
    comparison with it holds, which is the [None] of this model (the
    binary64 model below evaluates that case). *)
Definition distPointToSegment (p a b : Vector2) : option SegmentHit :=
  let ab := sub b a in
  let ap := sub p a in
  let proj := dot ap ab in
  let abLenSq := dot ab ab in
  if Req_dec_T abLenSq 0 then None else
  let d := Rmax 0 (Rmin 1 (proj / abLenSq)) in
  let closest := add a (mult ab d) in
  let distVec := sub p closest in
  let distance := mag distVec in
  let normal := normalize distVec in
  let normal :=
    if Req_dec_T distance 0 then normalize (mkV (- y ab) (x ab)) else normal in
  Some (mkHit distance normal closest).

(** JavaScript's [v || d] on numbers: [d] when [v] is falsy, that is zero
    (NaN is not a real number). *)
Definition orDefault (v d : R) : R := if Req_dec_T v 0 then d else v.
Definition orCount (n d : nat) : nat := if Nat.eqb n 0 then d else n.

Definition basicPolygons : list string :=
  ("triangle" :: "square" :: "pentagon" :: "hexagon" :: "octagon" :: nil)%string.

(** The hand-authored silhouettes of [generateShape], in the order of the
    [switch]; [None] is its [default] branch. *)
Definition normalizedPoints (type : string) : option (list Vector2) :=
  if String.eqb type "house" then
    Some (mkV 0 (-1) :: mkV 0.8 (-0.4) :: mkV 0.8 1 :: mkV (-0.8) 1
          :: mkV (-0.8) (-0.4) :: nil)
  else if String.eqb type "skull" then
    Some (mkV 0 (-1) :: mkV 0.7 (-0.7) :: mkV 0.9 0 :: mkV 0.5 0.5
          :: mkV 0.3 1 :: mkV (-0.3) 1 :: mkV (-0.5) 0.5 :: mkV (-0.9) 0
          :: mkV (-0.7) (-0.7) :: nil)
  else if String.eqb type "candy_cane" then
    Some (mkV (-0.5) (-1) :: mkV 0.5 (-1) :: mkV 0.5 1 :: mkV (-0.2) 1
          :: mkV (-0.2) (-0.4) :: mkV (-0.5) (-0.4) :: nil)
  else if String.eqb type "tree" then
    Some (mkV 0 (-1) :: mkV 0.4 (-0.4) :: mkV 0.2 (-0.4) :: mkV 0.6 0.2
          :: mkV 0.3 0.2 :: mkV 0.7 1 :: mkV (-0.7) 1 :: mkV (-0.3) 0.2
          :: mkV (-0.6) 0.2 :: mkV (-0.2) (-0.4) :: mkV (-0.4) (-0.4) :: nil)
  else if String.eqb type "ghost" then
    Some (mkV 0 (-1) :: mkV 0.8 (-0.5) :: mkV 0.8 1 :: mkV 0.4 0.8
          :: mkV 0 1 :: mkV (-0.4) 0.8 :: mkV (-0.8) 1 :: mkV (-0.8) (-0.5)
          :: nil)
  else if String.eqb type "pumpkin" then
    Some (mkV 0 (-0.9) :: mkV 0.1 (-1.1) :: mkV (-0.1) (-1.1) :: mkV 0 (-0.9)
          :: mkV (-0.6) (-0.8) :: mkV (-0.9) (-0.3) :: mkV (-0.95) 0.3
          :: mkV (-0.5) 0.9 :: mkV 0.5 0.9 :: mkV 0.95 0.3 :: mkV 0.9 (-0.3)
          :: mkV 0.6 (-0.8) :: nil)
  else None.

Definition generateShape (type : string) (vertexCount : nat) (radius : R)
    (center : Vector2) (rotation : R) : list Vector2 :=
  if existsb (String.eqb type) basicPolygons then
    generatePolygon (orCount vertexCount 4) radius center rotation
  else if String.eqb type "star" then
    generateStar (orCount vertexCount 5) radius (radius * 0.45) center rotation
  else
    match normalizedPoints type with
    | None => generatePolygon 4 radius center rotation
    | Some pts =>
        List.map (fun p => let scaled := mult p radius in
                           rotatePoint scaled center rotation) pts
    end.

(** *** The simulation state of [Canvas.tsx] *)

(** Modelled from the spec: [types.ts] is not part of the sources; the fields
    are the ones section 3 lists for a particle and [Canvas.tsx] writes when
    it initialises one. *)
Record Ball : Type := mkBall {
  id : string;
  pos : Vector2;
  vel : Vector2;
  radius : R;
  color : string
}.

(** Modelled from the spec: [types.ts] is not part of the sources; these are
    the fields of the configuration that [updatePhysics] reads, typed as the
    response schema of [App.tsx] types them (the remaining fields are read
    only when the particles are created). *)
Record SimulationConfig : Type := mkConfig {
  shapeType : string;
  vertexCount : nat;
  gravity : R;
  friction : R;
  restitution : R;
  rotationSpeed : R
}.

(** Modelled from the spec: [types.ts] is not part of the sources; the four
    multipliers are the ones [App.tsx] initialises. *)
Record GlobalSettings : Type := mkSettings {
  timeScale : R;
  gravityMultiplier : R;
  rotationMultiplier : R;
  bouncinessMultiplier : R
}.

(** The value of [stateRef.current]. *)
Record State : Type := mkState { balls : list Ball; rotation : R }.

Definition setPos (b : Ball) (p : Vector2) : Ball :=
  mkBall (id b) p (vel b) (radius b) (color b).
Definition setVel (b : Ball) (v : Vector2) : Ball :=
  mkBall (id b) (pos b) v (radius b) (color b).

Section Tick.

Variable config : SimulationConfig.
Variable globalSettings : GlobalSettings.

Definition shapeRadius (width height : R) : R := Rmin width height * 0.45.

Definition advanceRotation (rot : R) : R :=
  rot + orDefault (rotationSpeed config) 0.005
        * rotationMultiplier globalSettings * timeScale globalSettings.

(** The factor of [ball.vel = mult(ball.vel, 1 - (config.friction || 0.001) * timeScale)]. *)
Definition frictionFactor : R :=
  1 - orDefault (friction config) 0.001 * timeScale globalSettings.

(** Gravity and friction, then the position update. *)
Definition integrate (ball : Ball) : Ball :=
  let ts := timeScale globalSettings in
  let v1 := mkV (x (vel ball))
                (y (vel ball) + gravity config * gravityMultiplier globalSettings * ts) in
  let v2 := mult v1 frictionFactor in
  setPos (setVel ball v2) (add (pos ball) (mult v2 ts)).

Definition bounce : R := restitution config * bouncinessMultiplier globalSettings.

(** The response of the wall loop once an edge reports [dist] and [normal]. *)
Definition pushAndReflect (ball : Ball) (d : R) (n : Vector2) : Ball :=
  if Rlt_dec d (radius ball) then
    let penetration := radius ball - d in
    let ball := setPos ball (add (pos ball) (mult n penetration)) in
    let velDotNormal := dot (vel ball) n in
    if Rlt_dec velDotNormal 0 then
      let reflect := mult n (2 * velDotNormal) in
      let ball := setVel ball (sub (vel ball) (mult reflect 1)) in
      let ball := setVel ball (mult (vel ball) bounce) in
      setVel ball (add (vel ball) (mult n 0.1))
    else ball
  else ball.

(** One iteration of the wall loop: the edge from [p1] to [p2]. *)
Definition collideEdge (ball : Ball) (p1 p2 : Vector2) : Ball :=
  match distPointToSegment (pos ball) p1 p2 with
  | Some hit => pushAndReflect ball (dist hit) (normal hit)
  | None => ball
  end.

(** The pair [(p1, p2)] of iteration [i]; both indices are within the list. *)
Definition edge (localVertices : list Vector2) (i : nat) : Vector2 * Vector2 :=
  (nth i localVertices origin,
   nth ((i + 1) mod length localVertices) localVertices origin).

Definition wallCollision (localVertices : list Vector2) (ball : Ball) : Ball :=
  fold_left (fun b i => let '(p1, p2) := edge localVertices i in collideEdge b p1 p2)
            (seq 0 (length localVertices)) ball.

(** The body of the inner ball-to-ball loop on the two objects it reads. *)
Definition resolvePair (ballA ballB : Ball) : Ball * Ball :=
  let distVec := sub (pos ballB) (pos ballA) in
  let distance := mag distVec in
  let totalRadius := radius ballA + radius ballB in
  if Rlt_dec distance totalRadius then
    let overlap := totalRadius - distance in
    let correctionNormal :=
      if Req_dec_T distance 0 then mkV 1 0 else normalize distVec in
    let correctionA := mult correctionNormal (- overlap / 2) in
    let correctionB := mult correctionNormal (overlap / 2) in
    let ballA := setPos ballA (add (pos ballA) correctionA) in
    let ballB := setPos ballB (add (pos ballB) correctionB) in
    let relativeVelocity := sub (vel ballB) (vel ballA) in
    let speedAlongNormal := dot relativeVelocity correctionNormal in
    if Rlt_dec speedAlongNormal 0 then
      let collisionNormal := correctionNormal in
      let v1n_scalar := dot (vel ballA) collisionNormal in
      let v2n_scalar := dot (vel ballB) collisionNormal in
      let v1n_vec := mult collisionNormal v1n_scalar in
      let v2n_vec := mult collisionNormal v2n_scalar in
      let v1t_vec := sub (vel ballA) v1n_vec in
      let v2t_vec := sub (vel ballB) v2n_vec in
      (setVel ballA (add v1t_vec v2n_vec), setVel ballB (add v2t_vec v1n_vec))
    else (ballA, ballB)
  else (ballA, ballB).

(** Iteration [(i, j)] of the nested loops: [balls[i]] and [balls[j]] are
    read, and both objects are updated in the array. *)
Definition collidePair (i j : nat) (bs : list Ball) : list Ball :=
  match bs !! i, bs !! j with
  | Some ballA, Some ballB =>
      let '(a', b') := resolvePair ballA ballB in <[j := b']> (<[i := a']> bs)
  | _, _ => bs
  end.

Definition ballCollision (bs : list Ball) : list Ball :=
  let n := length bs in
  fold_left (fun acc i =>
               fold_left (fun acc j => collidePair i j acc)
                         (seq (i + 1) (n - (i + 1))) acc)
            (seq 0 n) bs.

(** Safety bounds reset, with the margin of the component at hand. *)
Definition safetyReset (limit : R) (ball : Ball) : Ball :=
  if Rgt_dec (mag (pos ball)) limit
  then setVel (setPos ball (mkV 0 0)) (mkV 0 0)
  else ball.

Definition localVertices (width height : R) (st : State) : list Vector2 :=
  generateShape (shapeType config) (vertexCount config)
                (shapeRadius width height) (mkV 0 0) (advanceRotation (rotation st)).

(** The particles after the [forEach] that integrates and bounces off the
    walls, and after the ball-to-ball loops. *)
Definition afterCollisions (width height : R) (st : State) : list Ball :=
  let vs := localVertices width height st in
  ballCollision (List.map (fun ball => wallCollision vs (integrate ball)) (balls st)).

Definition updatePhysics (width height : R) (st : State) : State :=
  mkState (List.map (safetyReset (shapeRadius width height + 200))
                    (afterCollisions width height st))
          (advanceRotation (rotation st)).

End Tick.

(** *** The earlier [Canvas] component

    The second canvas of the repository has the same integrator, ball-to-ball
    loops and reset; it builds its boundary itself, tests each edge as a
    half-plane, and resets beyond a margin of 100. *)
Module Legacy.

Section Tick.

Variable config : SimulationConfig.
Variable globalSettings : GlobalSettings.

Definition localVertices (width height : R) (st : State) : list Vector2 :=
  let shapeRadius := shapeRadius width height in
  let rot := advanceRotation config globalSettings (rotation st) in
  if String.eqb (shapeType config) "star" then
    generateStar (orCount (vertexCount config) 5) shapeRadius (shapeRadius * 0.4)
                 (mkV 0 0) rot
  else
    generatePolygon (orCount (vertexCount config) 4) shapeRadius (mkV 0 0) rot.

Definition collideEdge (ball : Ball) (p1 p2 : Vector2) : Ball :=
  let edge := sub p2 p1 in
  let edgeNormal := normalize (mkV (- y edge) (x edge)) in
  let edgeNormal :=
    if Rlt_dec (dot edgeNormal (mult p1 (-1))) 0
    then mkV (x edgeNormal * -1) (y edgeNormal * -1)
    else edgeNormal in
  let relPos := sub (pos ball) p1 in
  let dist := dot relPos edgeNormal in
  pushAndReflect config globalSettings ball dist edgeNormal.

Definition wallCollision (localVertices : list Vector2) (ball : Ball) : Ball :=
  fold_left (fun b i => let '(p1, p2) := edge localVertices i in collideEdge b p1 p2)
            (seq 0 (length localVertices)) ball.

Definition afterCollisions (width height : R) (st : State) : list Ball :=
  let vs := localVertices width height st in
  ballCollision
    (List.map (fun ball => wallCollision vs (integrate config globalSettings ball))
              (balls st)).

Definition updatePhysics (width height : R) (st : State) : State :=
  mkState (List.map (safetyReset (shapeRadius width height + 100))
                    (afterCollisions width height st))
          (advanceRotation config globalSettings (rotation st)).

End Tick.

End Legacy.

(** *** Sample configurations and states

    The configuration of the end-to-end scenario, on a 1000 by 1000 canvas
    (boundary radius 450), and the states the examples below run. *)

Definition sampleConfig : SimulationConfig := mkConfig "square" 4 0.3 0.001 0.8 0.005.
Definition starConfig : SimulationConfig := mkConfig "star" 5 0.3 0.001 0.8 0.005.
(** Friction 0.5 under the largest time scale of the speed slider. *)
Definition stiffConfig : SimulationConfig := mkConfig "square" 4 0 0.5 0.8 0.005.

Definition unitSettings : GlobalSettings := mkSettings 1 1 1 1.
Definition fastSettings : GlobalSettings := mkSettings 3 1 1 1.

(** The square of radius 450 at rotation 0. *)
Definition squareLoop : list Vector2 :=
  mkV 450 0 :: mkV 0 450 :: mkV (-450) 0 :: mkV 0 (-450) :: nil.

(** Two moving particles well inside the square and apart from each other. *)
Definition restingBalls : list Ball :=
  mkBall "0-0" (mkV (-20) 0) (mkV 1 2) 10 "#58a6ff"
  :: mkBall "0-1" (mkV 20 0) (mkV 0 (-1)) 10 "#39d353" :: nil.

Definition slidingBall : Ball := mkBall "0-0" (mkV 0 0) (mkV 4 0) 5 "#58a6ff".

(** *** Creating the particles: the first [useEffect] of [Canvas.tsx]

    [Math.random] is the sequence [random]: its [k]-th call returns
    [random k].  Each particle takes four values, in the order of the four
    [const] declarations.  The configuration fields read here are passed as
    arguments; [config.id] is the integer the presets and [Date.now()] give
    it, so the template string prints it in decimal. *)

Definition colors : list string :=
  ("#58a6ff" :: "#39d353" :: "#f1e05a" :: "#ff7b72" :: "#a371f7" :: nil)%string.

Definition newBall (configId : N) (initialSpeed ballSize : R) (random : nat -> R)
    (i : nat) : Ball :=
  let angle := random (4 * i)%nat * PI * 2 in
  let dist := random (4 * i + 1)%nat * 30 in
  let speed := initialSpeed * (0.5 + random (4 * i + 2)%nat) in
  let velAngle := random (4 * i + 3)%nat * PI * 2 in
  mkBall (pretty configId +:+ "-" +:+ pretty i)
         (mkV (0 + cos angle * dist) (0 + sin angle * dist))
         (mkV (cos velAngle * speed) (sin velAngle * speed))
         ballSize
         (nth (i mod length colors) colors ""%string).

(** [Math.floor] is [Int_part]; a negative count runs the loop no time. *)
Definition initialize (configId : N) (ballCount initialSpeed ballSize : R)
    (random : nat -> R) : State :=
  let count := Z.to_nat (Int_part (ballCount * 1)) in
  mkState (List.map (newBall configId initialSpeed ballSize random) (seq 0 count)) 0.

(** *** Drawing: [draw] and [tick] of [Canvas.tsx]

    The calls made on the 2D context, in order. *)
Inductive CanvasOp : Type :=
  | clearRect (x0 y0 w h : R)
  | beginPath
  | moveTo (px py : R)
  | lineTo (px py : R)
  | closePath
  | strokeStyle (s : string)
  | lineWidth (w : R)
  | lineJoin (s : string)
  | stroke
  | fillStyle (s : string)
  | fill
  | arc (cx cy r startAngle endAngle : R).

Definition drawBall (center : Vector2) (ball : Ball) : list CanvasOp :=
  let screenX := x center + x (pos ball) in
  let screenY := y center + y (pos ball) in
  beginPath :: arc screenX screenY (radius ball) 0 (PI * 2)
  :: fillStyle (color ball) :: fill
  :: strokeStyle "rgba(255, 255, 255, 0.2)" :: lineWidth 1 :: stroke :: nil.

Definition draw (config : SimulationConfig) (width height : R) (st : State)
    : list CanvasOp :=
  let center := mkV (width / 2) (height / 2) in
  let shapeRadius := Rmin width height * 0.45 in
  let points := generateShape (shapeType config) (vertexCount config) shapeRadius
                              center (rotation st) in
  (clearRect 0 0 width height :: beginPath :: nil)
  ++ match points with
     | nil => nil
     | p0 :: rest =>
         moveTo (x p0) (y p0) :: List.map (fun p => lineTo (x p) (y p)) rest
         ++ closePath :: nil
     end
  ++ (strokeStyle "#30363d" :: lineWidth 4 :: lineJoin "round" :: stroke
      :: fillStyle "rgba(22, 27, 34, 0.5)" :: fill :: nil)
  ++ flat_map (drawBall center) (balls st).

(** One animation frame on a mounted canvas whose size has been brought to
    [clientWidth] by [clientHeight]: the physics step, then the drawing of
    the state it left. *)
Definition tick (config : SimulationConfig) (globalSettings : GlobalSettings)
    (clientWidth clientHeight : R) (st : State) : State * list CanvasOp :=
  let st' := updatePhysics config globalSettings clientWidth clientHeight st in
  (st', draw config clientWidth clientHeight st').

(** What a list of context calls shows: the points of its paths, and its
    discs as centre and radius. *)
Definition outline (ops : list CanvasOp) : list Vector2 :=
  flat_map (fun op => match op with
                      | moveTo px py | lineTo px py => mkV px py :: nil
                      | _ => nil
                      end) ops.

Definition discs (ops : list CanvasOp) : list (Vector2 * R) :=
  flat_map (fun op => match op with
                      | arc cx cy r _ _ => (mkV cx cy, r) :: nil
                      | _ => nil
                      end) ops.

(** *** Quantities the properties below speak of *)

(** What a tick is not meant to touch in a particle. *)
Definition body (b : Ball) : string * R * string := (id b, radius b, color b).

End Exact.

(** ** The same code on binary64 numbers *)

Module Binary64.

Local Open Scope float_scope.
#[local] Set Warnings "-inexact-float".

(** The types are those of [Exact] with binary64 fields, and every function
    is the one of the same name there, operation for operation. *)
Record Vector2 : Type := mkV { x : float; y : float }.

Definition add (v1 v2 : Vector2) : Vector2 := mkV (x v1 + x v2) (y v1 + y v2).
Definition sub (v1 v2 : Vector2) : Vector2 := mkV (x v1 - x v2) (y v1 - y v2).
Definition mult (v : Vector2) (s : float) : Vector2 := mkV (x v * s) (y v * s).
Definition dot (v1 v2 : Vector2) : float := x v1 * x v2 + y v1 * y v2.
Definition mag (v : Vector2) : float := PrimFloat.sqrt (x v * x v + y v * y v).

(** [m === 0] is the IEEE equality: true for both zeros, false for NaN. *)
Definition normalize (v : Vector2) : Vector2 :=
  let m := mag v in
  if m =? 0 then mkV 0 0 else mkV (x v / m) (y v / m).

(** [Math.min] and [Math.max] of two numbers: NaN when either argument is
    NaN, and [-0] counts as smaller than [+0]. *)
Definition Math_min (a b : float) : float :=
  if is_nan a || is_nan b then nan
  else if a <? b then a
  else if b <? a then b
  else match classify a with NZero => a | _ => b end.

Definition Math_max (a b : float) : float :=
  if is_nan a || is_nan b then nan
  else if b <? a then a
  else if a <? b then b
  else match classify a with PZero => a | _ => b end.

Record SegmentHit : Type := mkHit { dist : float; normal : Vector2; closest : Vector2 }.

Definition distPointToSegment (p a b : Vector2) : SegmentHit :=
  let ab := sub b a in
  let ap := sub p a in
  let proj := dot ap ab in
  let abLenSq := dot ab ab in
  let d := Math_max 0 (Math_min 1 (proj / abLenSq)) in
  let closest := add a (mult ab d) in
  let distVec := sub p closest in
  let distance := mag distVec in
  let normal := normalize distVec in
  let normal :=
    if distance =? 0 then normalize (mkV (- y ab) (x ab)) else normal in
  mkHit distance normal closest.

(** [v || d]: zero and NaN are falsy. *)
Definition orDefault (v d : float) : float :=
  if (v =? 0) || is_nan v then d else v.

Record Ball : Type := mkBall {
  id : string;
  pos : Vector2;
  vel : Vector2;
  radius : float;
  color : string
}.

(** The numeric fields of the configuration; the shape fields only feed the
    vertex loop, which this model receives. *)
Record SimulationConfig : Type := mkConfig {
  gravity : float;
  friction : float;
  restitution : float;
  rotationSpeed : float
}.

Record GlobalSettings : Type := mkSettings {
  timeScale : float;
  gravityMultiplier : float;
  rotationMultiplier : float;
  bouncinessMultiplier : float
}.

Record State : Type := mkState { balls : list Ball; rotation : float }.

Definition setPos (b : Ball) (p : Vector2) : Ball :=
  mkBall (id b) p (vel b) (radius b) (color b).
Definition setVel (b : Ball) (v : Vector2) : Ball :=
  mkBall (id b) (pos b) v (radius b) (color b).

Section Tick.

Variable config : SimulationConfig.
Variable globalSettings : GlobalSettings.

Definition shapeRadius (width height : float) : float :=
  Math_min width height * 0.45.

Definition advanceRotation (rot : float) : float :=
  rot + orDefault (rotationSpeed config) 0.005
        * rotationMultiplier globalSettings * timeScale globalSettings.

Definition integrate (ball : Ball) : Ball :=
  let ts := timeScale globalSettings in
  let v1 := mkV (x (vel ball))
                (y (vel ball) + gravity config * gravityMultiplier globalSettings * ts) in
  let v2 := mult v1 (1 - orDefault (friction config) 0.001 * ts) in
  setPos (setVel ball v2) (add (pos ball) (mult v2 ts)).

Definition bounce : float := restitution config * bouncinessMultiplier globalSettings.

Definition collideEdge (ball : Ball) (p1 p2 : Vector2) : Ball :=
  let hit := distPointToSegment (pos ball) p1 p2 in
  if dist hit <? radius ball then
    let penetration := radius ball - dist hit in
    let ball := setPos ball (add (pos ball) (mult (normal hit) penetration)) in
    let velDotNormal := dot (vel ball) (normal hit) in
    if velDotNormal <? 0 then
      let reflect := mult (normal hit) (2 * velDotNormal) in
      let ball := setVel ball (sub (vel ball) (mult reflect 1)) in
      let ball := setVel ball (mult (vel ball) bounce) in
      setVel ball (add (vel ball) (mult (normal hit) 0.1))
    else ball
  else ball.

Definition edge (localVertices : list Vector2) (i : nat) : Vector2 * Vector2 :=
  (nth i localVertices (mkV 0 0),
   nth ((i + 1) mod length localVertices) localVertices (mkV 0 0)).

Definition wallCollision (localVertices : list Vector2) (ball : Ball) : Ball :=
  fold_left (fun b i => let '(p1, p2) := edge localVertices i in collideEdge b p1 p2)
            (seq 0 (length localVertices)) ball.

Definition resolvePair (ballA ballB : Ball) : Ball * Ball :=
  let distVec := sub (pos ballB) (pos ballA) in
  let distance := mag distVec in
  let totalRadius := radius ballA + radius ballB in
  if distance <? totalRadius then
    let overlap := totalRadius - distance in
    let correctionNormal :=
      if distance =? 0 then mkV 1 0 else normalize distVec in
    let correctionA := mult correctionNormal (- overlap / 2) in
    let correctionB := mult correctionNormal (overlap / 2) in
    let ballA := setPos ballA (add (pos ballA) correctionA) in
    let ballB := setPos ballB (add (pos ballB) correctionB) in
    let relativeVelocity := sub (vel ballB) (vel ballA) in
    let speedAlongNormal := dot relativeVelocity correctionNormal in
    if speedAlongNormal <? 0 then
      let collisionNormal := correctionNormal in
      let v1n_scalar := dot (vel ballA) collisionNormal in
      let v2n_scalar := dot (vel ballB) collisionNormal in
      let v1n_vec := mult collisionNormal v1n_scalar in
      let v2n_vec := mult collisionNormal v2n_scalar in
      let v1t_vec := sub (vel ballA) v1n_vec in
      let v2t_vec := sub (vel ballB) v2n_vec in
      (setVel ballA (add v1t_vec v2n_vec), setVel ballB (add v2t_vec v1n_vec))
    else (ballA, ballB)
  else (ballA, ballB).

Definition collidePair (i j : nat) (bs : list Ball) : list Ball :=
  match bs !! i, bs !! j with
  | Some ballA, Some ballB =>
      let '(a', b') := resolvePair ballA ballB in <[j := b']> (<[i := a']> bs)
  | _, _ => bs
  end.

Definition ballCollision (bs : list Ball) : list Ball :=
  let n := length bs in
  fold_left (fun acc i =>
               fold_left (fun acc j => collidePair i j acc)
                         (seq (i + 1) (n - (i + 1))) acc)
            (seq 0 n) bs.

(** [mag(ball.pos) > limit], written with the primitive [<]. *)
Definition safetyReset (limit : float) (ball : Ball) : Ball :=
  if limit <? mag (pos ball)
  then setVel (setPos ball (mkV 0 0)) (mkV 0 0)
  else ball.

Definition afterCollisions (localVertices : list Vector2) (st : State) : list Ball :=
  ballCollision
    (List.map (fun ball => wallCollision localVertices (integrate ball)) (balls st)).

(** [updatePhysics] of the current canvas, given the loop that
    [generateShape] returned for this tick. *)
Definition updatePhysics (localVertices : list Vector2) (width height : float)
    (st : State) : State :=
  mkState (List.map (safetyReset (shapeRadius width height + 200))
                    (afterCollisions localVertices st))
          (advanceRotation (rotation st)).

End Tick.

(** *** Finite values, and a sample state *)

Definition finite (f : float) : bool := negb (is_nan f) && negb (is_infinity f).
Definition finiteVector (v : Vector2) : bool := finite (x v) && finite (y v).
Definition finiteBall (b : Ball) : bool :=
  finiteVector (pos b) && finiteVector (vel b) && finite (radius b).
Definition finiteConfig (c : SimulationConfig) : bool :=
  finite (gravity c) && finite (friction c) && finite (restitution c)
  && finite (rotationSpeed c).
Definition finiteSettings (g : GlobalSettings) : bool :=
  finite (timeScale g) && finite (gravityMultiplier g)
  && finite (rotationMultiplier g) && finite (bouncinessMultiplier g).

(** A vector with a NaN coordinate. *)
Definition hasNaN (v : Vector2) : bool := is_nan (x v) || is_nan (y v).

(** The values a difference [a - a] can take: a zero, or NaN when [a] is
    infinite or NaN. *)
Definition zeroOrNaN (s : spec_float) : bool :=
  match s with S754_zero _ | S754_nan => true | _ => false end.

(** The configuration of the end-to-end scenario; a particle of radius 5
    that has sunk 2 into the edge from (0,0) to (10,0) and moves straight
    into it at speed 2; two overlapping particles approaching head-on at
    speed 1 on a line parallel to the x axis. *)
Definition sampleConfig : SimulationConfig := mkConfig 0.3 0.001 0.8 0.005.
Definition unitSettings : GlobalSettings := mkSettings 1 1 1 1.

(** A configuration whose gravity is finite but overflows under the
    largest gravity multiplier of the slider, paused. *)
Definition heavyConfig : SimulationConfig := mkConfig 1e308 0.001 0.8 0.005.
Definition heavyPaused : GlobalSettings := mkSettings 0 3 1 1.

Definition squareLoop : list Vector2 :=
  mkV 450 0 :: mkV 0 450 :: mkV (-450) 0 :: mkV 0 (-450) :: nil.

(** One particle at rest at the origin. *)
Definition restState : State :=
  mkState (mkBall "0-0" (mkV 0 0) (mkV 0 0) 10 "#58a6ff" :: nil) 0.

(** *** [effectiveSettings] of [App.tsx] *)

Definition effectiveSettings (isPlaying : bool) (globalSettings : GlobalSettings)
    : GlobalSettings :=
  mkSettings (if isPlaying then timeScale globalSettings else 0)
             (gravityMultiplier globalSettings)
             (rotationMultiplier globalSettings)
             (bouncinessMultiplier globalSettings).

(** *** Quantities the properties below speak of *)

(** A number that a step has left as it was, but for the sign of a zero:
    adding [+0] to [-0] gives [+0], and that is the only change adding a
    zero can make. *)
Definition unchanged (a a' : float) : Prop := a' = a \/ (a = neg_zero /\ a' = zero).

Definition unchangedVector (v v' : Vector2) : Prop :=
  unchanged (x v) (x v') /\ unchanged (y v) (y v').

Definition unchangedBall (b b' : Ball) : Prop :=
  id b' = id b /\ radius b' = radius b /\ color b' = color b
  /\ unchangedVector (pos b) (pos b') /\ unchangedVector (vel b) (vel b').


(** *** More samples *)

Definition pausedSettings : GlobalSettings := mkSettings 0 1 1 1.

(** Two moving particles well inside the square and apart from each other. *)
Definition restingBalls : list Ball :=
  mkBall "0-0" (mkV (-20) 0) (mkV 1 2) 10 "#58a6ff"
  :: mkBall "0-1" (mkV 20 0) (mkV 0 (-1)) 10 "#39d353" :: nil.

(** A moving particle far outside the boundary. *)
Definition strayBall : Ball := mkBall "0-0" (mkV 10000 0) (mkV 1 0) 5 "#58a6ff".

(** Two particles created at the same point. *)
Definition stackedBalls : list Ball :=
  mkBall "0-0" (mkV 0 0) (mkV 0 0) 5 "#58a6ff"
  :: mkBall "0-1" (mkV 0 0) (mkV 0 0) 5 "#39d353" :: nil.

(** A rotation speed that is finite but overflows under the largest
    rotation multiplier of the slider, paused. *)
Definition spinningConfig : SimulationConfig := mkConfig 0.3 0.001 0.8 1e308.
Definition spinningPaused : GlobalSettings := mkSettings 0 1 5 1.



End Binary64.

(** ** Loops and maps that leave their argument alone *)

Lemma fold_left_fixed {A B : Type} (f : A -> B -> A) (l : list B) (a : A) :
  (forall i, In i l -> f a i = a) -> fold_left f l a = a.
Proof.
  induction l as [|i l IH]; simpl; intros H; [reflexivity|].
  rewrite (H i) by (left; reflexivity). apply IH. intros j Hj. apply H. right; exact Hj.
Qed.

Lemma map_fixed {A : Type} (f : A -> A) (l : list A) :
  (forall a, In a l -> f a = a) -> List.map f l = l.
Proof.
  intros H. rewrite <- (List.map_id l) at 2. apply List.map_ext_in. exact H.
Qed.

Lemma Forall2_map_spec {A : Type} (P : A -> A -> Prop) (f : A -> A) (l : list A) :
  (forall a, P a (f a)) -> Forall2 P l (List.map f l).
Proof. intros H. induction l; simpl; constructor; auto. Qed.

Lemma fold_left_keeps {A B : Type} (P : A -> Prop) (f : A -> B -> A) (l : list B) (a : A) :
  (forall a i, P a -> P (f a i)) -> P a -> P (fold_left f l a).
Proof.
  intros Hf. revert a. induction l as [|i l IH]; simpl; intros a Ha; [exact Ha|].
  apply IH, Hf, Ha.
Qed.

Lemma lookup_map {A B : Type} (f : A -> B) (l : list A) (k : nat) :
  List.map f l !! k = option_map f (l !! k).
Proof.
  revert k. induction l as [|a l IH]; intros [|k]; simpl; try reflexivity. apply IH.
Qed.

Lemma Forall2_map_where {A : Type} (Q : A -> Prop) (P : A -> A -> Prop) (f : A -> A)
    (l : list A) :
  (forall a, Q a -> P a (f a)) -> Forall Q l -> Forall2 P l (List.map f l).
Proof. intros H Hl. induction Hl; simpl; constructor; auto. Qed.

(** ** Properties of the exact model *)

Module ExactFacts.

Import Exact.
Local Open Scope R_scope.

Lemma vector_eq (u v : Vector2) : x u = x v -> y u = y v -> u = v.
Proof. destruct u, v; simpl; intros -> ->; reflexivity. Qed.

Lemma dot_self_nonneg (v : Vector2) : 0 <= dot v v.
Proof. unfold dot; nra. Qed.

Lemma mag_nonneg (v : Vector2) : 0 <= mag v.
Proof. apply sqrt_pos. Qed.

Lemma mag_sqr (v : Vector2) : mag v * mag v = dot v v.
Proof. unfold mag; apply sqrt_sqrt; apply dot_self_nonneg. Qed.

Lemma mag_lt_sqr (v : Vector2) (r : R) : mag v < r -> dot v v < r * r.
Proof.
  intros H. rewrite <- mag_sqr. pose proof (mag_nonneg v). nra.
Qed.

Lemma clamp_unit (t : R) : 0 <= Rmax 0 (Rmin 1 t) <= 1.
Proof.
  unfold Rmax, Rmin. destruct (Rle_dec 1 t); destruct (Rle_dec 0 _); lra.
Qed.

(** *** Loops that change nothing *)

Section Misses.

Variable config : SimulationConfig.
Variable globalSettings : GlobalSettings.

Lemma pushAndReflect_miss (ball : Ball) (d : R) (n : Vector2) :
  ~ d < radius ball -> pushAndReflect config globalSettings ball d n = ball.
Proof.
  intros H. unfold pushAndReflect.
  destruct (Rlt_dec d (radius ball)); [contradiction|reflexivity].
Qed.

Lemma wallCollision_miss (verts : list Vector2) (ball : Ball) :
  (forall (i : nat) (hit : SegmentHit), (i < length verts)%nat ->
     distPointToSegment (pos ball) (fst (edge verts i)) (snd (edge verts i)) = Some hit ->
     ~ dist hit < radius ball) ->
  wallCollision config globalSettings verts ball = ball.
Proof.
  intros H. unfold wallCollision. apply fold_left_fixed. intros i Hi.
  apply in_seq in Hi. specialize (H i).
  destruct (edge verts i) as [p1 p2]; simpl in H. unfold collideEdge.
  destruct (distPointToSegment (pos ball) p1 p2) as [hit|]; [|reflexivity].
  apply pushAndReflect_miss. apply H; [lia|reflexivity].
Qed.

End Misses.

Lemma safetyReset_within (limit : R) (ball : Ball) :
  ~ mag (pos ball) > limit -> safetyReset limit ball = ball.
Proof.
  intros H. unfold safetyReset. destruct (Rgt_dec _ limit); [contradiction|reflexivity].
Qed.

Lemma safetyReset_beyond (limit : R) (ball : Ball) :
  mag (pos ball) > limit ->
  pos (safetyReset limit ball) = mkV 0 0 /\ vel (safetyReset limit ball) = mkV 0 0.
Proof.
  intros H. unfold safetyReset. destruct (Rgt_dec _ limit); [|contradiction].
  split; reflexivity.
Qed.

(** *** Concrete distances *)

(** A particle misses an edge when every point of the segment is at least
    a radius away. *)
Lemma far_from_edge (p a b : Vector2) (r : R) (hit : SegmentHit) :
  (forall t : R, 0 <= t <= 1 ->
     r * r <= dot (sub p (add a (mult (sub b a) t))) (sub p (add a (mult (sub b a) t)))) ->
  distPointToSegment p a b = Some hit -> ~ dist hit < r.
Proof.
  intros Hfar Hhit Hlt. unfold distPointToSegment in Hhit.
  destruct (Req_dec_T _ 0); [discriminate|]. injection Hhit as <-. simpl in Hlt.
  apply mag_lt_sqr in Hlt.
  match type of Hlt with context [Rmax 0 (Rmin 1 ?q)] =>
    specialize (Hfar _ (clamp_unit q)) end.
  lra.
Qed.

(** *** Sample computations *)

Lemma shapeRadius_1000 : shapeRadius 1000 1000 = 450.
Proof. unfold shapeRadius, Rmin. destruct (Rle_dec 1000 1000); lra. Qed.

Lemma restingBalls_clear (ball : Ball) (i : nat) (hit : SegmentHit) :
  In ball restingBalls -> (i < length squareLoop)%nat ->
  distPointToSegment (pos ball) (fst (edge squareLoop i)) (snd (edge squareLoop i)) = Some hit ->
  ~ dist hit < radius ball.
Proof.
  intros Hb Hi. apply far_from_edge. intros t Ht. simpl in Hi.
  destruct Hb as [<-|[<-|[]]];
    (destruct i as [|[|[|[|i]]]]; [| | | |lia]); unfold dot; simpl; nra.
Qed.

(** *** Star vertices *)

Lemma polar_distance (c : Vector2) (r theta : R) :
  0 <= r -> mag (sub (mkV (x c + r * cos theta) (y c + r * sin theta)) c) = r.
Proof.
  intros Hr. unfold mag; simpl.
  replace ((x c + r * cos theta - x c) * (x c + r * cos theta - x c)
           + (y c + r * sin theta - y c) * (y c + r * sin theta - y c))
    with (r * r * (Rsqr (sin theta) + Rsqr (cos theta))) by (unfold Rsqr; ring).
  rewrite sin2_cos2, Rmult_1_r. apply sqrt_square; exact Hr.
Qed.

Lemma parity_test (i : nat) : Nat.eqb (i mod 2) 0 = Nat.even i.
Proof.
  rewrite <- Nat.bit0_mod, Nat.bit0_odd, <- Nat.negb_even.
  destruct (Nat.even i); reflexivity.
Qed.

Lemma generateStar_length (points : nat) (ro ri : R) (c : Vector2) (rot : R) :
  length (generateStar points ro ri c rot) = (2 * points)%nat.
Proof. unfold generateStar. rewrite length_map, length_seq. lia. Qed.

Lemma generateStar_nth (points : nat) (ro ri : R) (c : Vector2) (rot : R) (i : nat) :
  (i < 2 * points)%nat ->
  nth i (generateStar points ro ri c rot) origin
  = let angle := INR i * PI / INR points + rot in
    let radius := if Nat.even i then ro else ri in
    mkV (x c + radius * cos angle) (y c + radius * sin angle).
Proof.
  intros Hlt. unfold generateStar.
  set (f := fun i : nat => _).
  rewrite (nth_indep _ origin (f 0%nat)) by (rewrite length_map, length_seq; lia).
  rewrite map_nth, seq_nth by lia. simpl Nat.add. unfold f.
  rewrite parity_test. reflexivity.
Qed.

Lemma generateStar_distance (points : nat) (ro ri : R) (c : Vector2) (rot : R) (i : nat) :
  0 <= ro -> 0 <= ri -> (i < 2 * points)%nat ->
  mag (sub (nth i (generateStar points ro ri c rot) origin) c)
  = if Nat.even i then ro else ri.
Proof.
  intros Ho Hi Hlt. unfold generateStar.
  set (f := fun i : nat => _).
  rewrite (nth_indep _ origin (f 0%nat)) by (rewrite length_map, length_seq; lia).
  rewrite map_nth, seq_nth by lia. simpl Nat.add. unfold f.
  rewrite parity_test. destruct (Nat.even i); apply polar_distance; assumption.
Qed.

(** ** The claims on the exact model *)

(** C2.  Runaway recovery: every particle whose distance from the origin
    exceeds [shapeRadius + margin] once the wall and ball-to-ball loops are
    done leaves the tick at the origin with zero velocity, whatever its
    velocity was; every other particle is left as the loops produced it.
    The margin is 200 in the current canvas and 100 in the earlier one. *)
Theorem runaway_recovery (config : SimulationConfig) (globalSettings : GlobalSettings)
    (width height : R) (st : State) :
  Forall2 (fun b b' : Ball =>
             (mag (pos b) > shapeRadius width height + 200 ->
              pos b' = mkV 0 0 /\ vel b' = mkV 0 0)
             /\ (~ mag (pos b) > shapeRadius width height + 200 -> b' = b))
          (afterCollisions config globalSettings width height st)
          (balls (updatePhysics config globalSettings width height st))
  /\ Forall2 (fun b b' : Ball =>
             (mag (pos b) > shapeRadius width height + 100 ->
              pos b' = mkV 0 0 /\ vel b' = mkV 0 0)
             /\ (~ mag (pos b) > shapeRadius width height + 100 -> b' = b))
          (Legacy.afterCollisions config globalSettings width height st)
          (balls (Legacy.updatePhysics config globalSettings width height st)).
Proof.
  split; simpl; apply Forall2_map_spec; intros b; split;
    auto using safetyReset_beyond, safetyReset_within.
Qed.

(** C4, as the code has it.  The factor applied to the velocity is exactly
    [1 - f * timeScale] with [f = config.friction || 0.001]; nothing clamps
    it, and it is non-negative exactly when [f * timeScale <= 1]. *)
Theorem friction_factor_unclamped (config : SimulationConfig)
    (globalSettings : GlobalSettings) :
  let f := orDefault (friction config) 0.001 in
  let ts := timeScale globalSettings in
  frictionFactor config globalSettings = 1 - f * ts
  /\ (forall ball : Ball,
        vel (integrate config globalSettings ball)
        = mult (mkV (x (vel ball))
                    (y (vel ball)
                     + gravity config * gravityMultiplier globalSettings * ts))
               (1 - f * ts))
  /\ (0 <= frictionFactor config globalSettings <-> f * ts <= 1)
  /\ (frictionFactor config globalSettings < 0 <-> 1 < f * ts).
Proof.
  cbv zeta. unfold frictionFactor. split; [reflexivity|].
  split; [intros ball; reflexivity|]. split; split; lra.
Qed.

(** With friction 0.5 and time scale 3 the factor is -0.5, and a particle
    sliding to the right at speed 4 ends the integration moving left. *)
Lemma friction_factor_negative :
  frictionFactor stiffConfig fastSettings = -0.5
  /\ frictionFactor stiffConfig fastSettings < 0
  /\ vel (integrate stiffConfig fastSettings slidingBall) = mkV (-2) 0.
Proof.
  assert (H : frictionFactor stiffConfig fastSettings = -0.5).
  { unfold frictionFactor, orDefault; simpl.
    destruct (Req_dec_T 0.5 0); lra. }
  split; [exact H|]. split; [rewrite H; lra|].
  unfold integrate. rewrite H. apply vector_eq; simpl; lra.
Qed.

(** C7.  Boundary-phase idempotence: when no edge of the loop reports, for
    any particle, a distance below that particle's radius, the wall loop
    returns every particle as it was. *)
Theorem wall_phase_idempotent (config : SimulationConfig)
    (globalSettings : GlobalSettings) (verts : list Vector2) (bs : list Ball) :
  (forall (ball : Ball) (i : nat) (hit : SegmentHit),
     In ball bs -> (i < length verts)%nat ->
     distPointToSegment (pos ball) (fst (edge verts i)) (snd (edge verts i)) = Some hit ->
     ~ dist hit < radius ball) ->
  List.map (wallCollision config globalSettings verts) bs = bs.
Proof.
  intros H. apply map_fixed. intros ball Hin.
  apply wallCollision_miss. intros i hit. apply H; exact Hin.
Qed.

Lemma wall_phase_idempotent_witness :
  List.map (wallCollision sampleConfig unitSettings squareLoop) restingBalls = restingBalls.
Proof.
  apply (wall_phase_idempotent sampleConfig unitSettings squareLoop restingBalls).
  exact restingBalls_clear.
Defined.

(** C8, as the code has it.  For [p >= 1] points [generateShape] returns for
    a star exactly [2p] vertices; vertex [i] is the centre plus
    [radius_i * (cos angle_i, sin angle_i)] with [angle_i = i * PI / p +
    rotation], where [radius_i] is [r] for even [i] and [r * 0.45] for odd
    [i].  The earlier canvas does not go through [generateShape]: its star
    has the same form with the radii [shapeRadius] and [shapeRadius * 0.4].
    The statement is about the expressions the code evaluates, so it reads
    the same on binary64 numbers, where the distance of a vertex from the
    centre is its [radius_i] up to rounding only. *)
Theorem star_generation (p : nat) (r : R) (center : Vector2) (rot : R) :
  (1 <= p)%nat ->
  let vertex (outer inner : R) (c : Vector2) (rotation : R) (i : nat) :=
    let angle := INR i * PI / INR p + rotation in
    let radius := if Nat.even i then outer else inner in
    mkV (x c + radius * cos angle) (y c + radius * sin angle) in
  let vs := generateShape "star" p r center rot in
  length vs = (2 * p)%nat
  /\ (forall i : nat, (i < 2 * p)%nat ->
        nth i vs origin = vertex r (r * 0.45) center rot i)
  /\ (forall (config : SimulationConfig) (globalSettings : GlobalSettings)
             (width height : R) (st : State),
        shapeType config = "star"%string -> vertexCount config = p ->
        let vs' := Legacy.localVertices config globalSettings width height st in
        let outer := shapeRadius width height in
        length vs' = (2 * p)%nat
        /\ forall i : nat, (i < 2 * p)%nat ->
             nth i vs' origin
             = vertex outer (outer * 0.4) (mkV 0 0)
                      (advanceRotation config globalSettings (rotation st)) i).
Proof.
  intros Hp vertex vs.
  assert (Hc : orCount p 5 = p).
  { unfold orCount. destruct p; [lia|reflexivity]. }
  assert (Hvs : vs = generateStar p r (r * 0.45) center rot).
  { subst vs. unfold generateShape. simpl existsb. cbv iota.
    rewrite String.eqb_refl, Hc. reflexivity. }
  split; [rewrite Hvs; apply generateStar_length|].
  split.
  - intros i Hi. rewrite Hvs. apply generateStar_nth. exact Hi.
  - intros config globalSettings width height st Hs Hv vs' outer.
    assert (Hvs' : vs' = generateStar p outer (outer * 0.4) (mkV 0 0)
                           (advanceRotation config globalSettings (rotation st))).
    { subst vs'. unfold Legacy.localVertices. rewrite Hs, Hv, Hc. reflexivity. }
    split; [rewrite Hvs'; apply generateStar_length|].
    intros i Hi. rewrite Hvs'. apply generateStar_nth. exact Hi.
Qed.

(** The five-pointed star of radius 100: ten vertices, the second one on
    the inner radius [100 * 0.45]. *)
Lemma star_generation_witness :
  length (generateShape "star" 5 100 (mkV 0 0) 0) = 10%nat
  /\ nth 1 (generateShape "star" 5 100 (mkV 0 0) 0) origin
     = mkV (0 + 100 * 0.45 * cos (1 * PI / 5 + 0)) (0 + 100 * 0.45 * sin (1 * PI / 5 + 0)).
Proof.
  assert (Hp : (1 <= 5)%nat) by lia.
  destruct (star_generation 5 100 (mkV 0 0) 0 Hp) as (Hlen & Hnth & _).
  split; [exact Hlen|]. rewrite (Hnth 1%nat) by lia. simpl. repeat f_equal; lra.
Defined.

(** Two inner ratios are in the repository: on a 1000 by 1000 canvas the
    five-pointed star of the earlier canvas has its first inner vertex 180
    from the centre, where the ratio 0.45 puts it at 202.5.  And the
    distance of an outer vertex is the absolute value of the radius, so it
    is not [r] when [r] is negative. *)
Lemma star_generation_counterexample :
  mag (sub (nth 1 (Legacy.localVertices starConfig unitSettings 1000 1000
                     (mkState nil 0)) origin) (mkV 0 0)) = 0.4 * 450
  /\ 0.4 * 450 <> 0.45 * shapeRadius 1000 1000
  /\ mag (sub (nth 0 (generateShape "star" 5 (-1) (mkV 0 0) 0) origin) (mkV 0 0)) <> -1.
Proof.
  split; [|split].
  - unfold Legacy.localVertices. simpl String.eqb. cbv iota. simpl orCount.
    rewrite shapeRadius_1000.
    rewrite generateStar_distance by (try lra; simpl; lia). simpl; ring.
  - rewrite shapeRadius_1000. lra.
  - pose proof (mag_nonneg (sub (nth 0 (generateShape "star" 5 (-1) (mkV 0 0) 0) origin)
                                (mkV 0 0))). lra.
Qed.

End ExactFacts.

(** ** Properties of the binary64 model *)

Module Binary64Facts.

Import Binary64.
Local Open Scope float_scope.
#[local] Set Warnings "-inexact-float".

(** *** NaN through the arithmetic and through the comparisons *)

Lemma SFcompare_refl (s : spec_float) : s <> S754_nan -> SFcompare s s = Some Eq.
Proof.
  destruct s as [b|b| |b m e]; intros H; try contradiction; simpl.
  - reflexivity.
  - destruct b; reflexivity.
  - destruct b; rewrite Z.compare_refl, Pos.compare_cont_refl; reflexivity.
Qed.

Lemma is_nan_Prim2SF (f : float) : is_nan f = true -> Prim2SF f = S754_nan.
Proof.
  unfold is_nan. rewrite FloatAxioms.eqb_spec. unfold SFeqb. intros H.
  destruct (Prim2SF f) as [b|b| |b m e] eqn:E; try reflexivity; exfalso.
  all: rewrite SFcompare_refl in H by discriminate; discriminate.
Qed.

Lemma Prim2SF_is_nan (f : float) : Prim2SF f = S754_nan -> is_nan f = true.
Proof.
  intros H. unfold is_nan. rewrite FloatAxioms.eqb_spec, H. reflexivity.
Qed.

Lemma is_nan_nan : is_nan nan = true.
Proof. reflexivity. Qed.

(** No number is below NaN, and NaN is below no number. *)
Lemma ltb_nan_r (a f : float) : is_nan f = true -> (a <? f) = false.
Proof.
  intros H. rewrite FloatAxioms.ltb_spec, (is_nan_Prim2SF f H). unfold SFltb.
  destruct (Prim2SF a); reflexivity.
Qed.

Lemma ltb_nan_l (f a : float) : is_nan f = true -> (f <? a) = false.
Proof.
  intros H. rewrite FloatAxioms.ltb_spec, (is_nan_Prim2SF f H). reflexivity.
Qed.

Lemma eqb_nan_l (a b : float) : is_nan a = true -> (a =? b) = false.
Proof.
  intros H. rewrite FloatAxioms.eqb_spec, (is_nan_Prim2SF a H). reflexivity.
Qed.

Ltac nan_left spec H :=
  apply Prim2SF_is_nan; rewrite spec, (is_nan_Prim2SF _ H); reflexivity.
Ltac nan_right spec other H :=
  apply Prim2SF_is_nan; rewrite spec, (is_nan_Prim2SF _ H);
  destruct (Prim2SF other); reflexivity.

Lemma add_nan_l (a b : float) : is_nan a = true -> is_nan (a + b) = true.
Proof. intros H. nan_left FloatAxioms.add_spec H. Qed.

Lemma add_nan_r (a b : float) : is_nan b = true -> is_nan (a + b) = true.
Proof. intros H. nan_right FloatAxioms.add_spec a H. Qed.

Lemma sub_nan_l (a b : float) : is_nan a = true -> is_nan (a - b) = true.
Proof. intros H. nan_left FloatAxioms.sub_spec H. Qed.

Lemma sub_nan_r (a b : float) : is_nan b = true -> is_nan (a - b) = true.
Proof. intros H. nan_right FloatAxioms.sub_spec a H. Qed.

Lemma mul_nan_l (a b : float) : is_nan a = true -> is_nan (a * b) = true.
Proof. intros H. nan_left FloatAxioms.mul_spec H. Qed.

Lemma mul_nan_r (a b : float) : is_nan b = true -> is_nan (a * b) = true.
Proof. intros H. nan_right FloatAxioms.mul_spec a H. Qed.

Lemma div_nan_l (a b : float) : is_nan a = true -> is_nan (a / b) = true.
Proof. intros H. nan_left FloatAxioms.div_spec H. Qed.

Lemma div_nan_r (a b : float) : is_nan b = true -> is_nan (a / b) = true.
Proof. intros H. nan_right FloatAxioms.div_spec a H. Qed.

Lemma sqrt_nan (a : float) : is_nan a = true -> is_nan (PrimFloat.sqrt a) = true.
Proof. intros H. nan_left FloatAxioms.sqrt_spec H. Qed.

Lemma Math_min_nan_r (a b : float) : is_nan b = true -> Math_min a b = nan.
Proof. intros H. unfold Math_min. rewrite H, orb_true_r. reflexivity. Qed.

Lemma Math_max_nan_r (a b : float) : is_nan b = true -> Math_max a b = nan.
Proof. intros H. unfold Math_max. rewrite H, orb_true_r. reflexivity. Qed.

(** A vector with a NaN coordinate has a NaN magnitude. *)
Lemma hasNaN_mag (v : Vector2) : hasNaN v = true -> is_nan (mag v) = true.
Proof.
  intros H. unfold mag. apply sqrt_nan. apply orb_true_iff in H as [H|H].
  - apply add_nan_l, mul_nan_l, H.
  - apply add_nan_r, mul_nan_l, H.
Qed.

(** *** Zero divided by zero *)

Lemma sub_self_zeroOrNaN (a : float) : zeroOrNaN (Prim2SF (a - a)) = true.
Proof.
  rewrite FloatAxioms.sub_spec. unfold SF64sub.
  destruct (Prim2SF a) as [s|s| |s m e]; simpl.
  - destruct s; reflexivity.
  - destruct s; reflexivity.
  - reflexivity.
  - rewrite Z.min_id. unfold shl_align.
    rewrite ?Z.sub_diag; simpl; rewrite ?Z.sub_diag; reflexivity.
Qed.

Lemma mul_zeroOrNaN_r (q z : float) :
  zeroOrNaN (Prim2SF z) = true -> zeroOrNaN (Prim2SF (q * z)) = true.
Proof.
  rewrite FloatAxioms.mul_spec. unfold SF64mul.
  destruct (Prim2SF z) as [s|s| |s m e]; try discriminate; intros _;
    destruct (Prim2SF q); reflexivity.
Qed.

Lemma add_zeroOrNaN (a b : float) :
  zeroOrNaN (Prim2SF a) = true -> zeroOrNaN (Prim2SF b) = true ->
  zeroOrNaN (Prim2SF (a + b)) = true.
Proof.
  rewrite FloatAxioms.add_spec. unfold SF64add.
  destruct (Prim2SF a) as [s|s| |s m e]; try discriminate; intros _;
    destruct (Prim2SF b) as [t|t| |t m' e']; try discriminate; intros _;
    try reflexivity.
  destruct s, t; reflexivity.
Qed.

Lemma div_zeroOrNaN (a b : float) :
  zeroOrNaN (Prim2SF a) = true -> zeroOrNaN (Prim2SF b) = true ->
  is_nan (a / b) = true.
Proof.
  intros Ha Hb. apply Prim2SF_is_nan. rewrite FloatAxioms.div_spec. unfold SF64div.
  destruct (Prim2SF a) as [s|s| |s m e]; try discriminate;
    destruct (Prim2SF b) as [t|t| |t m' e']; try discriminate; reflexivity.
Qed.

(** *** A NaN coordinate through [distPointToSegment] *)

Lemma hasNaN_sub_l (p a : Vector2) : hasNaN p = true -> hasNaN (sub p a) = true.
Proof.
  unfold hasNaN; simpl. intros H. apply orb_true_iff in H as [H|H].
  - rewrite (sub_nan_l _ _ H). reflexivity.
  - rewrite (sub_nan_l _ _ H). apply orb_true_r.
Qed.

Lemma hasNaN_sub_r (p a : Vector2) : hasNaN a = true -> hasNaN (sub p a) = true.
Proof.
  unfold hasNaN; simpl. intros H. apply orb_true_iff in H as [H|H].
  - rewrite (sub_nan_r _ _ H). reflexivity.
  - rewrite (sub_nan_r _ _ H). apply orb_true_r.
Qed.

Lemma hasNaN_add_l (p a : Vector2) : hasNaN p = true -> hasNaN (add p a) = true.
Proof.
  unfold hasNaN; simpl. intros H. apply orb_true_iff in H as [H|H].
  - rewrite (add_nan_l _ _ H). reflexivity.
  - rewrite (add_nan_l _ _ H). apply orb_true_r.
Qed.

Lemma dot_nan_l (u v : Vector2) : hasNaN u = true -> is_nan (dot u v) = true.
Proof.
  unfold hasNaN, dot. intros H. apply orb_true_iff in H as [H|H].
  - apply add_nan_l, mul_nan_l, H.
  - apply add_nan_r, mul_nan_l, H.
Qed.

(** The distance reported for a point with a NaN coordinate is NaN. *)
Lemma distPointToSegment_nan (p a b : Vector2) :
  hasNaN p = true -> is_nan (dist (distPointToSegment p a b)) = true.
Proof.
  intros Hp. unfold distPointToSegment.
  set (ab := sub b a).
  assert (Hq : is_nan (dot (sub p a) ab / dot ab ab) = true).
  { apply div_nan_l, dot_nan_l, hasNaN_sub_l, Hp. }
  rewrite (Math_min_nan_r 1 _ Hq), (Math_max_nan_r 0 nan is_nan_nan).
  cbv zeta. simpl dist. apply hasNaN_mag, hasNaN_sub_l, Hp.
Qed.

(** *** A NaN position through the loops of a tick *)

Section Persistence.

Variable config : SimulationConfig.
Variable globalSettings : GlobalSettings.

Lemma collideEdge_nan (ball : Ball) (p1 p2 : Vector2) :
  hasNaN (pos ball) = true -> collideEdge config globalSettings ball p1 p2 = ball.
Proof.
  intros H. unfold collideEdge.
  rewrite ltb_nan_l by (apply distPointToSegment_nan; exact H). reflexivity.
Qed.

Lemma wallCollision_nan (verts : list Vector2) (ball : Ball) :
  hasNaN (pos ball) = true -> wallCollision config globalSettings verts ball = ball.
Proof.
  intros H. unfold wallCollision. apply fold_left_fixed. intros i _.
  destruct (edge verts i) as [p1 p2]. apply collideEdge_nan; exact H.
Qed.

Lemma integrate_nan (ball : Ball) :
  hasNaN (pos ball) = true -> hasNaN (pos (integrate config globalSettings ball)) = true.
Proof. intros H. unfold integrate. simpl. apply hasNaN_add_l; exact H. Qed.

End Persistence.

Lemma resolvePair_nan_l (ballA ballB : Ball) :
  hasNaN (pos ballA) = true -> resolvePair ballA ballB = (ballA, ballB).
Proof.
  intros H. unfold resolvePair.
  rewrite ltb_nan_l by (apply hasNaN_mag, hasNaN_sub_r, H). reflexivity.
Qed.

Lemma resolvePair_nan_r (ballA ballB : Ball) :
  hasNaN (pos ballB) = true -> resolvePair ballA ballB = (ballA, ballB).
Proof.
  intros H. unfold resolvePair.
  rewrite ltb_nan_l by (apply hasNaN_mag, hasNaN_sub_l, H). reflexivity.
Qed.

Lemma collidePair_keeps (i j k : nat) (bs : list Ball) (b : Ball) :
  bs !! k = Some b -> hasNaN (pos b) = true -> collidePair i j bs !! k = Some b.
Proof.
  intros Hk Hb. unfold collidePair.
  destruct (bs !! i) as [ballA|] eqn:Ei; [|exact Hk].
  destruct (bs !! j) as [ballB|] eqn:Ej; [|exact Hk].
  destruct (decide (k = i)) as [->|Hki].
  { assert (ballA = b) by congruence. subst ballA.
    rewrite resolvePair_nan_l by exact Hb.
    rewrite (list_insert_id bs i b Ei), (list_insert_id bs j ballB Ej). exact Hk. }
  destruct (decide (k = j)) as [->|Hkj].
  { assert (ballB = b) by congruence. subst ballB.
    rewrite resolvePair_nan_r by exact Hb.
    rewrite (list_insert_id bs i ballA Ei), (list_insert_id bs j b Ej). exact Hk. }
  destruct (resolvePair ballA ballB) as [a' b'].
  rewrite !list_lookup_insert_ne by congruence. exact Hk.
Qed.

Lemma ballCollision_keeps (k : nat) (bs : list Ball) (b : Ball) :
  bs !! k = Some b -> hasNaN (pos b) = true -> ballCollision bs !! k = Some b.
Proof.
  intros Hk Hb. unfold ballCollision.
  apply (fold_left_keeps (fun acc => acc !! k = Some b)); [|exact Hk].
  intros acc i Hacc.
  apply (fold_left_keeps (fun acc => acc !! k = Some b)); [|exact Hacc].
  intros acc' j Hacc'. apply collidePair_keeps; assumption.
Qed.

(** *** Multiplying by one *)

Lemma one_Prim2SF : Prim2SF 1 = S754_finite false 4503599627370496 (-52).
Proof. reflexivity. Qed.

Lemma zero_Prim2SF : Prim2SF 0 = S754_zero false.
Proof. reflexivity. Qed.

(** The mantissa of [m * 2 ^ 52], shifted right 52 times, is [m], and the
    shift loses nothing. *)
Lemma shr_52_exact (m : positive) :
  SpecFloat.iter_pos shr_1 52%positive
    {| shr_m := Z.pos (m~0~0~0~0~0~0~0~0~0~0~0~0~0~0~0~0~0~0~0~0~0~0~0~0~0~0~0~0~0~0~0~0~0~0~0~0~0~0~0~0~0~0~0~0~0~0~0~0~0~0~0~0);
       shr_r := false; shr_s := false |}
  = {| shr_m := Z.pos m; shr_r := false; shr_s := false |}.
Proof. reflexivity. Qed.

Lemma digits2_pos_shift52 (m : positive) :
  digits2_pos (m~0~0~0~0~0~0~0~0~0~0~0~0~0~0~0~0~0~0~0~0~0~0~0~0~0~0~0~0~0~0~0~0~0~0~0~0~0~0~0~0~0~0~0~0~0~0~0~0~0~0~0~0)
  = (digits2_pos m + 52)%positive.
Proof. cbn [digits2_pos]. lia. Qed.

Lemma pos_shift52 (m : positive) :
  (4503599627370496 * m)%positive
  = (m~0~0~0~0~0~0~0~0~0~0~0~0~0~0~0~0~0~0~0~0~0~0~0~0~0~0~0~0~0~0~0~0~0~0~0~0~0~0~0~0~0~0~0~0~0~0~0~0~0~0~0~0)%positive.
Proof. reflexivity. Qed.

(** [a * 1] is [a] for every number, rounding included: the product of the
    mantissas is the mantissa of [a] followed by 52 zeros, which rounds to
    it exactly. *)
Lemma mul_one_r (a : float) : a * 1 = a.
Proof.
  apply Prim2SF_inj. rewrite FloatAxioms.mul_spec, one_Prim2SF.
  pose proof (Prim2SF_valid a) as Hv.
  destruct (Prim2SF a) as [s|s| |s m e]; try (destruct s; reflexivity); try reflexivity.
  unfold SF64mul, SFmul. rewrite xorb_false_r.
  unfold valid_binary, bounded, canonical_mantissa in Hv.
  apply andb_true_iff in Hv as [Hc Hb]. apply Z.eqb_eq in Hc. apply Z.leb_le in Hb.
  rewrite Pos.mul_comm, pos_shift52.
  unfold binary_round_aux, shr_fexp. cbn [Zdigits2].
  rewrite digits2_pos_shift52.
  replace (Z.pos (digits2_pos m + 52) + (e + -52))%Z with (Z.pos (digits2_pos m) + e)%Z by lia.
  rewrite Hc. replace (e - (e + -52))%Z with 52%Z by lia.
  cbn [shr_record_of_loc]. unfold shr at 1. rewrite shr_52_exact.
  cbn [shr_m loc_of_shr_record round_nearest_even Zdigits2 shr_record_of_loc].
  replace (e + -52 + 52)%Z with e by lia. rewrite Hc, Z.sub_diag.
  cbn [shr shr_m]. apply Z.leb_le in Hb. rewrite Hb. reflexivity.
Qed.

(** *** Multiplying by zero and adding a zero *)

Lemma finite_Prim2SF (a : float) :
  finite a = true ->
  (exists s, Prim2SF a = S754_zero s) \/ (exists s m e, Prim2SF a = S754_finite s m e).
Proof.
  unfold finite, is_nan, is_infinity.
  rewrite !FloatAxioms.eqb_spec, FloatAxioms.abs_spec.
  change (Prim2SF infinity) with (S754_infinity false).
  destruct (Prim2SF a) as [s|s| |s m e]; intros H; eauto.
  - destruct s; discriminate.
  - discriminate.
Qed.

(** A finite number times zero is a zero; an infinite one gives NaN. *)
Lemma mul_zero_r (a : float) :
  finite a = true -> exists s, Prim2SF (a * 0) = S754_zero s.
Proof.
  intros H. rewrite FloatAxioms.mul_spec, zero_Prim2SF.
  destruct (finite_Prim2SF a H) as [[s ->]|(s & m & e & ->)]; simpl; eauto.
Qed.

Lemma add_zero_unchanged (a z : float) (s : bool) :
  Prim2SF z = S754_zero s -> unchanged a (a + z).
Proof.
  intros Hz. unfold unchanged.
  destruct (Prim2SF a) as [t|t| |t m e] eqn:Ha.
  - destruct t, s.
    + left. apply Prim2SF_inj. rewrite FloatAxioms.add_spec, Ha, Hz. reflexivity.
    + right. split; apply Prim2SF_inj; [exact Ha|].
      rewrite FloatAxioms.add_spec, Ha, Hz. reflexivity.
    + left. apply Prim2SF_inj. rewrite FloatAxioms.add_spec, Ha, Hz. reflexivity.
    + left. apply Prim2SF_inj. rewrite FloatAxioms.add_spec, Ha, Hz. reflexivity.
  - left. apply Prim2SF_inj. rewrite FloatAxioms.add_spec, Ha, Hz. reflexivity.
  - left. apply Prim2SF_inj. rewrite FloatAxioms.add_spec, Ha, Hz. reflexivity.
  - left. apply Prim2SF_inj. rewrite FloatAxioms.add_spec, Ha, Hz. reflexivity.
Qed.

Lemma one_sub_zero (z : float) (s : bool) : Prim2SF z = S754_zero s -> 1 - z = 1.
Proof.
  intros Hz. apply Prim2SF_inj. rewrite FloatAxioms.sub_spec, Hz. reflexivity.
Qed.

Lemma unchanged_finite (a a' : float) :
  unchanged a a' -> finite a = true -> finite a' = true.
Proof. intros [->|[_ ->]] H; [exact H|reflexivity]. Qed.

(** *** Loops that change nothing, and the integrator at time scale 0 *)

Section Rest.

Variable config : SimulationConfig.
Variable globalSettings : GlobalSettings.

Lemma collideEdge_skips (ball : Ball) (p1 p2 : Vector2) :
  (dist (distPointToSegment (pos ball) p1 p2) <? radius ball) = false ->
  collideEdge config globalSettings ball p1 p2 = ball.
Proof. intros H. unfold collideEdge. rewrite H. reflexivity. Qed.

Lemma wallCollision_skips (verts : list Vector2) (ball : Ball) :
  (forall i : nat, (i < length verts)%nat ->
     (dist (distPointToSegment (pos ball) (fst (edge verts i)) (snd (edge verts i)))
      <? radius ball) = false) ->
  wallCollision config globalSettings verts ball = ball.
Proof.
  intros H. unfold wallCollision. apply fold_left_fixed. intros i Hi.
  apply in_seq in Hi. specialize (H i).
  destruct (edge verts i) as [p1 p2]; simpl in H.
  apply collideEdge_skips, H. lia.
Qed.

Lemma advanceRotation_at_rest (rot : float) :
  timeScale globalSettings = 0 ->
  finite (orDefault (rotationSpeed config) 0.005 * rotationMultiplier globalSettings) = true ->
  unchanged rot (advanceRotation config globalSettings rot).
Proof.
  intros Hts Hf. unfold advanceRotation. rewrite Hts.
  destruct (mul_zero_r _ Hf) as [s Hz]. exact (add_zero_unchanged rot _ s Hz).
Qed.

Lemma integrate_at_rest (ball : Ball) :
  timeScale globalSettings = 0 ->
  finite (gravity config * gravityMultiplier globalSettings) = true ->
  finite (orDefault (friction config) 0.001) = true ->
  finiteVector (vel ball) = true ->
  unchangedBall ball (integrate config globalSettings ball).
Proof.
  intros Hts Hg Hf Hv. apply andb_true_iff in Hv as [Hvx Hvy].
  unfold unchangedBall, integrate. rewrite Hts.
  destruct (mul_zero_r _ Hg) as [sg Hzg]. destruct (mul_zero_r _ Hf) as [sf Hzf].
  rewrite (one_sub_zero _ sf Hzf).
  cbv zeta. unfold mult, add, setPos, setVel. simpl.
  rewrite !mul_one_r.
  pose proof (add_zero_unchanged (y (vel ball)) _ sg Hzg) as Hy.
  pose proof (unchanged_finite _ _ Hy Hvy) as Hvy'.
  destruct (mul_zero_r _ Hvx) as [sx Hzx]. destruct (mul_zero_r _ Hvy') as [sy Hzy].
  repeat split; try reflexivity.
  - exact (add_zero_unchanged _ _ sx Hzx).
  - exact (add_zero_unchanged _ _ sy Hzy).
  - left; reflexivity.
  - exact Hy.
Qed.

End Rest.

Lemma resolvePair_apart (ballA ballB : Ball) :
  (mag (sub (pos ballB) (pos ballA)) <? radius ballA + radius ballB) = false ->
  resolvePair ballA ballB = (ballA, ballB).
Proof. intros H. unfold resolvePair. rewrite H. reflexivity. Qed.

Lemma collidePair_apart (i j : nat) (bs : list Ball) :
  (forall ballA ballB : Ball, bs !! i = Some ballA -> bs !! j = Some ballB ->
     (mag (sub (pos ballB) (pos ballA)) <? radius ballA + radius ballB) = false) ->
  collidePair i j bs = bs.
Proof.
  intros H. unfold collidePair.
  destruct (bs !! i) as [ballA|] eqn:Ei; [|reflexivity].
  destruct (bs !! j) as [ballB|] eqn:Ej; [|reflexivity].
  rewrite resolvePair_apart by (apply H; reflexivity).
  rewrite (list_insert_id bs i ballA Ei). apply list_insert_id; exact Ej.
Qed.

Lemma ballCollision_apart (bs : list Ball) :
  (forall (i j : nat) (ballA ballB : Ball), (i < j)%nat ->
     bs !! i = Some ballA -> bs !! j = Some ballB ->
     (mag (sub (pos ballB) (pos ballA)) <? radius ballA + radius ballB) = false) ->
  ballCollision bs = bs.
Proof.
  intros H. unfold ballCollision. apply fold_left_fixed. intros i _.
  apply fold_left_fixed. intros j Hj. apply in_seq in Hj.
  apply collidePair_apart. intros ballA ballB. apply H. lia.
Qed.

Lemma safetyReset_inside (limit : float) (ball : Ball) :
  (limit <? mag (pos ball)) = false -> safetyReset limit ball = ball.
Proof. intros H. unfold safetyReset. rewrite H. reflexivity. Qed.

(** *** The velocities the pair body returns *)


(** ** The claims on the binary64 model *)




(** C3, as the code has it.  The tick has no finite-value check.  Its last
    pass resets to the origin, with zero velocity, exactly the particles
    whose position magnitude compares greater than [shapeRadius + 200]; that
    includes a position of infinite magnitude when the limit is finite, and
    excludes every position with a NaN coordinate.  A particle that enters a
    tick with a NaN position coordinate leaves it as the integrator made it,
    again with a NaN coordinate: neither the wall loop, nor the ball-to-ball
    loops, nor the reset touch it. *)
Theorem nonfinite_state (config : SimulationConfig) (globalSettings : GlobalSettings)
    (localVertices : list Vector2) (width height : float) (st : State) :
  let limit := shapeRadius width height + 200 in
  let st' := updatePhysics config globalSettings localVertices width height st in
  Forall2 (fun b b' : Ball =>
             ((limit <? mag (pos b)) = true -> pos b' = mkV 0 0 /\ vel b' = mkV 0 0)
             /\ ((limit <? mag (pos b)) = false -> b' = b)
             /\ (mag (pos b) = infinity -> (limit <? infinity) = true ->
                 pos b' = mkV 0 0 /\ vel b' = mkV 0 0)
             /\ (hasNaN (pos b) = true -> b' = b))
          (afterCollisions config globalSettings localVertices st) (balls st')
  /\ (forall (k : nat) (b : Ball),
        balls st !! k = Some b -> hasNaN (pos b) = true ->
        balls st' !! k = Some (integrate config globalSettings b)
        /\ hasNaN (pos (integrate config globalSettings b)) = true).
Proof.
  intros limit st'. split.
  - subst st'. simpl. apply Forall2_map_spec. intros b. unfold safetyReset. fold limit.
    split; [|split; [|split]].
    + intros ->. split; reflexivity.
    + intros ->. reflexivity.
    + intros -> ->. split; reflexivity.
    + intros H. rewrite ltb_nan_r by (apply hasNaN_mag; exact H). reflexivity.
  - intros k b Hk Hb.
    pose proof (integrate_nan config globalSettings b Hb) as Hi.
    split; [|exact Hi]. subst st'. unfold updatePhysics, afterCollisions. simpl balls.
    rewrite lookup_map.
    rewrite (ballCollision_keeps k _ (integrate config globalSettings b)); [| |exact Hi].
    + simpl. unfold safetyReset.
      rewrite ltb_nan_r by (apply hasNaN_mag; exact Hi). reflexivity.
    + rewrite lookup_map, Hk. simpl.
      rewrite wallCollision_nan by exact Hi. reflexivity.
Qed.

(** A finite state that a tick leaves non-finite: with gravity 1e308, gravity
    multiplier 3 and time scale 0, the product [gravity * gravityMultiplier]
    overflows and [Infinity * 0] is NaN.  The particle at rest ends the tick
    with a NaN position and velocity, and the next tick returns the same
    state. *)
Lemma finiteness_counterexample :
  let st1 := updatePhysics heavyConfig heavyPaused squareLoop 1000 1000 restState in
  finiteConfig heavyConfig && finiteSettings heavyPaused
    && forallb finiteBall (balls restState) = true
  /\ balls st1 = mkBall "0-0" (mkV 0 nan) (mkV 0 nan) 10 "#58a6ff" :: nil
  /\ forallb finiteBall (balls st1) = false
  /\ updatePhysics heavyConfig heavyPaused squareLoop 1000 1000 st1 = st1.
Proof. cbv zeta. repeat split; vm_compute; reflexivity. Qed.

(** C5, as the code has it.  Take [timeScale = 0], and let the products the
    tick multiplies by it be finite: [(rotationSpeed || 0.005) *
    rotationMultiplier], [gravity * gravityMultiplier] and [friction ||
    0.001].  Then the rotation accumulator is unchanged, and the integration
    leaves every particle of finite velocity unchanged, in both cases but
    for a [-0] that becomes [+0].  The wall loop, the ball-to-ball loops and
    the safety reset still run: the tick returns the integrated particles
    when none of them is within its radius of an edge, no two of them
    overlap and none is beyond the reset distance. *)
Theorem pause_frame (config : SimulationConfig) (globalSettings : GlobalSettings)
    (localVertices : list Vector2) (width height : float) (st : State) :
  timeScale globalSettings = 0 ->
  finite (orDefault (rotationSpeed config) 0.005 * rotationMultiplier globalSettings) = true ->
  finite (gravity config * gravityMultiplier globalSettings) = true ->
  finite (orDefault (friction config) 0.001) = true ->
  let st' := updatePhysics config globalSettings localVertices width height st in
  let moved := List.map (integrate config globalSettings) (balls st) in
  unchanged (rotation st) (rotation st')
  /\ (forall ball : Ball, finiteVector (vel ball) = true ->
        unchangedBall ball (integrate config globalSettings ball))
  /\ ((forall (ball : Ball) (i : nat), In ball moved -> (i < length localVertices)%nat ->
         (dist (distPointToSegment (pos ball) (fst (edge localVertices i))
                                   (snd (edge localVertices i)))
          <? radius ball) = false) ->
      (forall (i j : nat) (ballA ballB : Ball), (i < j)%nat ->
         moved !! i = Some ballA -> moved !! j = Some ballB ->
         (mag (sub (pos ballB) (pos ballA)) <? radius ballA + radius ballB) = false) ->
      (forall ball : Ball, In ball moved ->
         (shapeRadius width height + 200 <? mag (pos ball)) = false) ->
      balls st' = moved
      /\ (Forall (fun ball : Ball => finiteVector (vel ball) = true) (balls st) ->
          Forall2 unchangedBall (balls st) (balls st'))).
Proof.
  intros Hts Hr Hg Hf st' moved.
  split; [apply advanceRotation_at_rest; assumption|].
  split; [intros ball Hv; apply integrate_at_rest; assumption|].
  intros Hwall Hpair Hfar.
  assert (Hst : balls st' = moved).
  { subst st'. unfold updatePhysics, afterCollisions. simpl balls.
    rewrite <- (List.map_map (integrate config globalSettings)
                  (wallCollision config globalSettings localVertices)).
    fold moved.
    rewrite (map_fixed (wallCollision config globalSettings localVertices) moved).
    - rewrite ballCollision_apart by exact Hpair.
      apply map_fixed. intros ball Hin. apply safetyReset_inside, Hfar, Hin.
    - intros ball Hin. apply wallCollision_skips. intros i. apply Hwall; exact Hin. }
  split; [exact Hst|]. intros Hfin. rewrite Hst.
  apply (Forall2_map_where (fun ball => finiteVector (vel ball) = true)); [|exact Hfin].
  intros ball Hv. apply integrate_at_rest; assumption.
Qed.

(** The two particles of the samples, paused inside the square. *)
Lemma pause_frame_witness :
  balls (updatePhysics sampleConfig pausedSettings squareLoop 1000 1000
           (mkState restingBalls 0)) = restingBalls.
Proof.
  assert (Hts : timeScale pausedSettings = 0) by reflexivity.
  assert (Hr : finite (orDefault (rotationSpeed sampleConfig) 0.005
                       * rotationMultiplier pausedSettings) = true)
    by (vm_compute; reflexivity).
  assert (Hg : finite (gravity sampleConfig * gravityMultiplier pausedSettings) = true)
    by (vm_compute; reflexivity).
  assert (Hf : finite (orDefault (friction sampleConfig) 0.001) = true)
    by (vm_compute; reflexivity).
  pose proof (pause_frame sampleConfig pausedSettings squareLoop 1000 1000
                (mkState restingBalls 0) Hts Hr Hg Hf) as H.
  cbv zeta in H. destruct H as (_ & _ & H).
  assert (Hm : List.map (integrate sampleConfig pausedSettings) restingBalls = restingBalls)
    by (vm_compute; reflexivity).
  simpl balls in H at 1 2 3. rewrite Hm in H. clear Hm Hts Hr Hg Hf.
  apply H; clear H.
  - intros ball i Hin Hi.
    assert (Hi' : (i < 4)%nat) by exact Hi. clear Hi.
    destruct i as [|[|[|[|i]]]]; [| | | |lia];
      destruct Hin as [E|[E|[]]]; subst ball; vm_compute; reflexivity.
  - intros i j ballA ballB Hij Hi Hj. unfold restingBalls in Hi, Hj.
    destruct i as [|[|i]]; destruct j as [|[|j]]; try lia; simpl in Hi, Hj;
      try discriminate Hi; try discriminate Hj.
    injection Hi as <-. injection Hj as <-. vm_compute. reflexivity.
  - intros ball Hin. destruct Hin as [E|[E|[]]]; subst ball; vm_compute; reflexivity.
Defined.

(** A paused tick does not always leave the state as it was.  The safety
    reset and the ball-to-ball loops still run: the stray particle, 10000
    away from the origin, comes back at the origin with its velocity gone,
    and two particles created at the same point are pushed 5 apart each.
    And a finite rotation speed of 1e308 under the rotation multiplier 5
    overflows, so the paused step [Infinity * 0] makes the rotation NaN. *)
Lemma pause_frame_counterexample :
  let tick := updatePhysics sampleConfig pausedSettings squareLoop 1000 1000 in
  timeScale pausedSettings = 0
  /\ balls (tick (mkState (strayBall :: nil) 0))
     = mkBall "0-0" (mkV 0 0) (mkV 0 0) 5 "#58a6ff" :: nil
  /\ tick (mkState (strayBall :: nil) 0) <> mkState (strayBall :: nil) 0
  /\ balls (tick (mkState stackedBalls 0))
     = mkBall "0-0" (mkV (-5) 0) (mkV 0 0) 5 "#58a6ff"
       :: mkBall "0-1" (mkV 5 0) (mkV 0 0) 5 "#39d353" :: nil
  /\ timeScale spinningPaused = 0
  /\ finite (rotationSpeed spinningConfig) && finite (rotationMultiplier spinningPaused)
     = true
  /\ is_nan (rotation (updatePhysics spinningConfig spinningPaused squareLoop 1000 1000
                         (mkState restingBalls 0))) = true.
Proof.
  cbv zeta. repeat split; try (vm_compute; reflexivity).
  intros H.
  apply (f_equal (fun st => match balls st with
                            | b :: _ => Prim2SF (x (pos b))
                            | nil => S754_nan
                            end)) in H.
  vm_compute in H. discriminate.
Qed.




(** C9, where the code fails.  [normalize] guards its division and returns
    the zero vector for the zero vector.  [distPointToSegment] does not guard
    [proj / abLenSq]: for a segment from [a] to [a] the distance, the normal
    and the closest point are NaN, for every point [p] and every [a]; at the
    point (1,0) and the vertex (0,0) the result is evaluated.  Such an edge
    is what the wall loop gets from a one-vertex polygon, and in exact
    arithmetic the quotient is [0 / 0] for every point. *)
Theorem degenerate_segment_nan :
  normalize (mkV 0 0) = mkV 0 0
  /\ distPointToSegment (mkV 1 0) (mkV 0 0) (mkV 0 0)
     = mkHit nan (mkV nan nan) (mkV nan nan)
  /\ (forall p a : Vector2,
        let h := distPointToSegment p a a in
        is_nan (dist h) = true
        /\ hasNaN (normal h) = true /\ hasNaN (closest h) = true)
  /\ (forall p a : Exact.Vector2, Exact.distPointToSegment p a a = None)
  /\ (forall (r : R) (c : Exact.Vector2) (rot : R),
        let vs := Exact.generateShape "triangle" 1 r c rot in
        length vs = 1%nat /\ fst (Exact.edge vs 0) = snd (Exact.edge vs 0)).
Proof.
  split; [vm_compute; reflexivity|]. split; [vm_compute; reflexivity|].
  split; [|split].
  - intros p a. cbv zeta. unfold distPointToSegment.
    set (ab := sub a a). set (ap := sub p a).
    assert (Hx : zeroOrNaN (Prim2SF (x ab)) = true) by apply sub_self_zeroOrNaN.
    assert (Hy : zeroOrNaN (Prim2SF (y ab)) = true) by apply sub_self_zeroOrNaN.
    assert (Hq : is_nan (dot ap ab / dot ab ab) = true).
    { apply div_zeroOrNaN; unfold dot; apply add_zeroOrNaN;
        apply mul_zeroOrNaN_r; assumption. }
    rewrite (Math_min_nan_r 1 _ Hq), (Math_max_nan_r 0 nan is_nan_nan).
    set (c := add a (mult ab nan)).
    assert (Hcx : is_nan (x c) = true) by (apply add_nan_r, mul_nan_r, is_nan_nan).
    assert (Hm : is_nan (mag (sub p c)) = true).
    { apply hasNaN_mag. unfold hasNaN; simpl. rewrite sub_nan_r by exact Hcx.
      reflexivity. }
    cbv zeta. simpl dist. simpl normal. simpl closest.
    rewrite (eqb_nan_l _ 0 Hm). unfold normalize. rewrite (eqb_nan_l _ 0 Hm).
    split; [exact Hm|]. split.
    + unfold hasNaN; simpl. rewrite div_nan_r by exact Hm. reflexivity.
    + unfold hasNaN. rewrite Hcx. reflexivity.
  - intros p a. unfold Exact.distPointToSegment.
    destruct (Req_dec_T _ 0%R) as [_|N]; [reflexivity|].
    exfalso. apply N. unfold Exact.dot; simpl. ring.
  - intros r c rot. split; reflexivity.
Qed.



End Binary64Facts.

(** ** Further properties of the exact model *)

Module ExactExtras.

Import Exact ExactFacts.
Local Open Scope R_scope.

(** *** The shapes of [generateShape] *)

(** The shape of a name that [normalizedPoints] knows. *)
Lemma generateShape_silhouette (type : string) (pts : list Vector2) (n : nat) (r : R)
    (c : Vector2) (rot : R) :
  normalizedPoints type = Some pts ->
  generateShape type n r c rot
  = List.map (fun p => rotatePoint (mult p r) c rot) pts.
Proof.
  intros H. unfold generateShape.
  assert (Hk : existsb (String.eqb type) basicPolygons = false
               /\ String.eqb type "star" = false).
  { unfold normalizedPoints in H.
    repeat match type of H with
    | (if String.eqb type ?s then _ else _) = _ =>
        let E := fresh "E" in
        destruct (String.eqb type s) eqn:E;
        [apply String.eqb_eq in E; subst type; split; reflexivity|]
    end.
    discriminate. }
  destruct Hk as [-> ->]. rewrite H. reflexivity.
Qed.

(** X4.  Outside the five polygon names and the star [generateShape] does
    not read the vertex count; a silhouette has one vertex for each of its
    hand-authored points; and a name it does not know gives the polygon of
    four sides. *)
Theorem generateShape_other_names (type : string) (n : nat) (r : R) (c : Vector2)
    (rot : R) :
  (~ In type basicPolygons -> type <> "star"%string ->
   forall m : nat, generateShape type m r c rot = generateShape type n r c rot)
  /\ (forall pts : list Vector2, normalizedPoints type = Some pts ->
        length (generateShape type n r c rot) = length pts)
  /\ (~ In type ("triangle" :: "square" :: "pentagon" :: "hexagon" :: "octagon"
                 :: "star" :: "house" :: "skull" :: "candy_cane" :: "tree"
                 :: "ghost" :: "pumpkin" :: nil)%string ->
      generateShape type n r c rot = generatePolygon 4 r c rot).
Proof.
  split; [|split].
  - intros Hb Hs m. unfold generateShape.
    assert (Eb : existsb (String.eqb type) basicPolygons = false).
    { apply not_true_is_false. intros E. apply existsb_exists in E as (s & Hin & Es).
      apply String.eqb_eq in Es. subst s. exact (Hb Hin). }
    rewrite Eb. apply String.eqb_neq in Hs. rewrite Hs. reflexivity.
  - intros pts H. rewrite (generateShape_silhouette type pts) by exact H.
    apply length_map.
  - intros Hu. unfold generateShape, normalizedPoints, basicPolygons. simpl existsb.
    repeat match goal with
    | |- context [String.eqb type ?s] =>
        let E := fresh "E" in
        destruct (String.eqb type s) eqn:E;
        [apply String.eqb_eq in E; subst type; exfalso; apply Hu; simpl; tauto|]
    end.
    reflexivity.
Qed.

(** X5.  For the five polygon names and the star the centre is a
    translation: the shape about [center] is the shape about the origin with
    [center] added to every vertex. *)
Theorem generateShape_translate (type : string) (n : nat) (r : R) (c : Vector2)
    (rot : R) :
  In type basicPolygons \/ type = "star"%string ->
  generateShape type n r c rot
  = List.map (add c) (generateShape type n r (mkV 0 0) rot).
Proof.
  intros H. unfold generateShape.
  assert (Hp : forall k, generatePolygon k r c rot
                         = List.map (add c) (generatePolygon k r (mkV 0 0) rot)).
  { intros k. unfold generatePolygon. rewrite List.map_map. apply List.map_ext.
    intros i. apply vector_eq; simpl; ring. }
  assert (Hs : forall k ri, generateStar k r ri c rot
                            = List.map (add c) (generateStar k r ri (mkV 0 0) rot)).
  { intros k ri. unfold generateStar. rewrite List.map_map. apply List.map_ext.
    intros i. apply vector_eq; simpl; ring. }
  destruct H as [H| ->].
  - assert (E : existsb (String.eqb type) basicPolygons = true).
    { apply existsb_exists. exists type. split; [exact H|apply String.eqb_refl]. }
    rewrite E. apply Hp.
  - simpl existsb. cbv iota. simpl String.eqb. cbv iota. apply Hs.
Qed.

Lemma generateShape_translate_witness :
  generateShape "square" 4 450 (mkV 500 500) 0
  = List.map (add (mkV 500 500)) (generateShape "square" 4 450 (mkV 0 0) 0).
Proof.
  apply generateShape_translate. left. simpl. tauto.
Defined.

(** *** What a tick keeps *)

Lemma map_insert_same {A B : Type} (f : A -> B) (l : list A) (i : nat) (x : A) :
  (forall y, l !! i = Some y -> f x = f y) ->
  List.map f (<[i:=x]> l) = List.map f l.
Proof.
  revert i. induction l as [|a l IH]; intros [|i] H; simpl; try reflexivity.
  - f_equal. apply H. reflexivity.
  - f_equal. apply IH. exact H.
Qed.

Section Bodies.

Variable config : SimulationConfig.
Variable globalSettings : GlobalSettings.

Lemma body_pushAndReflect (ball : Ball) (d : R) (n : Vector2) :
  body (pushAndReflect config globalSettings ball d n) = body ball.
Proof.
  unfold pushAndReflect. destruct (Rlt_dec d (radius ball)); [|reflexivity].
  cbv zeta. destruct (Rlt_dec _ 0); reflexivity.
Qed.

Lemma body_wallCollision (verts : list Vector2) (ball : Ball) :
  body (wallCollision config globalSettings verts ball) = body ball.
Proof.
  unfold wallCollision.
  apply (fold_left_keeps (fun b => body b = body ball)); [|reflexivity].
  intros b i Hb. destruct (edge verts i) as [p1 p2]. unfold collideEdge.
  destruct (distPointToSegment (pos b) p1 p2); [|exact Hb].
  rewrite body_pushAndReflect. exact Hb.
Qed.

Lemma body_legacy_wallCollision (verts : list Vector2) (ball : Ball) :
  body (Legacy.wallCollision config globalSettings verts ball) = body ball.
Proof.
  unfold Legacy.wallCollision.
  apply (fold_left_keeps (fun b => body b = body ball)); [|reflexivity].
  intros b i Hb. destruct (edge verts i) as [p1 p2]. unfold Legacy.collideEdge.
  cbv zeta. rewrite body_pushAndReflect. exact Hb.
Qed.

End Bodies.

Lemma body_resolvePair (ballA ballB : Ball) :
  body (fst (resolvePair ballA ballB)) = body ballA
  /\ body (snd (resolvePair ballA ballB)) = body ballB.
Proof.
  unfold resolvePair. destruct (Rlt_dec _ _); [|split; reflexivity].
  cbv zeta. destruct (Rlt_dec _ 0); split; reflexivity.
Qed.

Lemma body_collidePair (i j : nat) (bs : list Ball) :
  List.map body (collidePair i j bs) = List.map body bs.
Proof.
  unfold collidePair.
  destruct (bs !! i) as [ballA|] eqn:Ei; [|reflexivity].
  destruct (bs !! j) as [ballB|] eqn:Ej; [|reflexivity].
  destruct (body_resolvePair ballA ballB) as [Ha Hb].
  destruct (resolvePair ballA ballB) as [a' b']. simpl in Ha, Hb.
  rewrite map_insert_same.
  - apply map_insert_same. intros y Hy. congruence.
  - intros y Hy. apply list_lookup_insert_Some in Hy as [(-> & <- & _)|[_ Hy]].
    + congruence.
    + congruence.
Qed.

Lemma body_ballCollision (bs : list Ball) :
  List.map body (ballCollision bs) = List.map body bs.
Proof.
  unfold ballCollision.
  apply (fold_left_keeps (fun acc => List.map body acc = List.map body bs));
    [|reflexivity].
  intros acc i Hacc.
  apply (fold_left_keeps (fun acc => List.map body acc = List.map body bs));
    [|exact Hacc].
  intros acc' j Hacc'. rewrite body_collidePair. exact Hacc'.
Qed.

Lemma body_safetyReset (limit : R) (ball : Ball) : body (safetyReset limit ball) = body ball.
Proof. unfold safetyReset. destruct (Rgt_dec _ limit); reflexivity. Qed.

(** X13.  A tick of either canvas keeps the number of particles, their
    order, and every particle's id, radius and colour. *)
Theorem updatePhysics_keeps_bodies (config : SimulationConfig)
    (globalSettings : GlobalSettings) (width height : R) (st : State) :
  let kept (b : Ball) := (id b, radius b, color b) in
  List.map kept (balls (updatePhysics config globalSettings width height st))
  = List.map kept (balls st)
  /\ List.map kept (balls (Legacy.updatePhysics config globalSettings width height st))
     = List.map kept (balls st)
  /\ length (balls (updatePhysics config globalSettings width height st))
     = length (balls st).
Proof.
  cbv zeta. change (fun b : Ball => (id b, radius b, color b)) with body.
  assert (H1 : List.map body (balls (updatePhysics config globalSettings width height st))
               = List.map body (balls st)).
  { unfold updatePhysics, afterCollisions. simpl balls.
    rewrite List.map_map. erewrite List.map_ext by (intros; apply body_safetyReset).
    rewrite body_ballCollision, List.map_map. apply List.map_ext.
    intros b. rewrite body_wallCollision. reflexivity. }
  split; [exact H1|]. split.
  - unfold Legacy.updatePhysics, Legacy.afterCollisions. simpl balls.
    rewrite List.map_map. erewrite List.map_ext by (intros; apply body_safetyReset).
    rewrite body_ballCollision, List.map_map. apply List.map_ext.
    intros b. rewrite body_legacy_wallCollision. reflexivity.
  - rewrite <- (length_map body), H1. apply length_map.
Qed.

(** *** Boundaries that hold nothing, and values read as missing *)

Lemma degenerate_edge (p a : Vector2) : distPointToSegment p a a = None.
Proof.
  unfold distPointToSegment. destruct (Req_dec_T _ 0) as [_|N]; [reflexivity|].
  exfalso. apply N. unfold dot; simpl. ring.
Qed.

Lemma wallCollision_point_loop (config : SimulationConfig)
    (globalSettings : GlobalSettings) (verts : list Vector2) (v0 : Vector2)
    (ball : Ball) :
  List.Forall (eq v0) verts -> wallCollision config globalSettings verts ball = ball.
Proof.
  intros Hall. apply wallCollision_miss. intros i hit Hi H. exfalso.
  assert (Hlen : forall k, (k < length verts)%nat -> nth k verts origin = v0).
  { intros k Hk. rewrite List.Forall_forall in Hall. symmetry. apply Hall.
    apply nth_In. exact Hk. }
  unfold edge in H. simpl in H.
  rewrite (Hlen i Hi) in H. rewrite Hlen in H.
  - rewrite degenerate_edge in H. discriminate.
  - apply Nat.mod_upper_bound. lia.
Qed.

Lemma generateShape_zero_radius (type : string) (n : nat) (rot : R) :
  List.Forall (eq (mkV 0 0)) (generateShape type n 0 (mkV 0 0) rot).
Proof.
  assert (Hp : forall k, List.Forall (eq (mkV 0 0)) (generatePolygon k 0 (mkV 0 0) rot)).
  { intros k. unfold generatePolygon. apply List.Forall_forall. intros v Hv.
    apply in_map_iff in Hv as (i & <- & _). apply vector_eq; simpl; ring. }
  unfold generateShape.
  destruct (existsb (String.eqb type) basicPolygons); [apply Hp|].
  destruct (String.eqb type "star").
  { unfold generateStar. apply List.Forall_forall. intros v Hv.
    apply in_map_iff in Hv as (i & <- & _).
    destruct (Nat.eqb (i mod 2) 0); apply vector_eq; simpl; ring. }
  destruct (normalizedPoints type) as [pts|]; [|apply Hp].
  apply List.Forall_forall. intros v Hv. apply in_map_iff in Hv as (p & <- & _).
  unfold rotatePoint. apply vector_eq; simpl; ring.
Qed.

(** X15.  A loop whose vertices all coincide collides with nothing: every
    edge is degenerate and is skipped.  That is the boundary of a canvas of
    zero width or height, whatever the shape, and the boundary of a polygon
    configured with one vertex. *)
Theorem point_boundary_holds_nothing (config : SimulationConfig)
    (globalSettings : GlobalSettings) (width height : R) (st : State) (ball : Ball) :
  let verts := localVertices config globalSettings width height st in
  (Rmin width height = 0 -> wallCollision config globalSettings verts ball = ball)
  /\ (In (shapeType config) basicPolygons -> vertexCount config = 1%nat ->
      wallCollision config globalSettings verts ball = ball).
Proof.
  cbv zeta. split.
  - intros H0. apply (wallCollision_point_loop _ _ _ (mkV 0 0)).
    unfold localVertices, shapeRadius. rewrite H0.
    replace (0 * 0.45) with 0 by ring. apply generateShape_zero_radius.
  - intros Hb Hv. unfold localVertices, generateShape.
    assert (E : existsb (String.eqb (shapeType config)) basicPolygons = true).
    { apply existsb_exists. exists (shapeType config).
      split; [exact Hb|apply String.eqb_refl]. }
    rewrite E, Hv. simpl orCount. unfold generatePolygon. simpl List.map.
    eapply wallCollision_point_loop. constructor; [reflexivity|constructor].
Qed.

(** X16.  A configured zero is read as missing: rotation speed 0 turns the
    boundary by 0.005 per unit of time, friction 0 decays the velocity by
    0.001, and vertex count 0 gives four sides to a polygon and five points
    to a star. *)
Theorem zero_reads_as_default (config : SimulationConfig)
    (globalSettings : GlobalSettings) (rot r : R) (c : Vector2) :
  (rotationSpeed config = 0 ->
   advanceRotation config globalSettings rot
   = rot + 0.005 * rotationMultiplier globalSettings * timeScale globalSettings)
  /\ (friction config = 0 ->
      frictionFactor config globalSettings = 1 - 0.001 * timeScale globalSettings)
  /\ (forall type : string, In type basicPolygons ->
        length (generateShape type 0 r c rot) = 4%nat)
  /\ length (generateShape "star" 0 r c rot) = 10%nat.
Proof.
  split; [|split; [|split]].
  - intros H. unfold advanceRotation, orDefault. rewrite H.
    destruct (Req_dec_T 0 0) as [_|N]; [reflexivity|contradiction].
  - intros H. unfold frictionFactor, orDefault. rewrite H.
    destruct (Req_dec_T 0 0) as [_|N]; [reflexivity|contradiction].
  - intros type H. unfold generateShape.
    assert (E : existsb (String.eqb type) basicPolygons = true).
    { apply existsb_exists. exists type. split; [exact H|apply String.eqb_refl]. }
    rewrite E. reflexivity.
  - reflexivity.
Qed.

(** *** Creating the particles *)






(** X18.  The particles of one instance have pairwise different ids. *)
Theorem initialize_ids_distinct (configId : N) (ballCount initialSpeed ballSize : R)
    (random : nat -> R) :
  List.NoDup (List.map id (balls (initialize configId ballCount initialSpeed ballSize random))).
Proof.
  unfold initialize. simpl balls. rewrite List.map_map. simpl.
  apply Finite.Injective_map_NoDup; [|apply List.seq_NoDup].
  intros i j H. apply String.app_inj in H. apply String.app_inj in H.
  apply (inj pretty) in H. exact H.
Qed.

(** *** Drawing *)

Lemma outline_app (l1 l2 : list CanvasOp) : outline (l1 ++ l2) = outline l1 ++ outline l2.
Proof. unfold outline. apply flat_map_app. Qed.

Lemma discs_app (l1 l2 : list CanvasOp) : discs (l1 ++ l2) = discs l1 ++ discs l2.
Proof. unfold discs. apply flat_map_app. Qed.

Lemma outline_lineTo (pts : list Vector2) :
  outline (List.map (fun p => lineTo (x p) (y p)) pts) = pts.
Proof. induction pts as [|[px py] pts IH]; simpl; [reflexivity|]. f_equal. exact IH. Qed.

Lemma discs_lineTo (pts : list Vector2) :
  discs (List.map (fun p => lineTo (x p) (y p)) pts) = nil.
Proof. induction pts as [|p pts IH]; simpl; [reflexivity|exact IH]. Qed.

Lemma outline_balls (center : Vector2) (bs : list Ball) :
  outline (flat_map (drawBall center) bs) = nil.
Proof. induction bs as [|b bs IH]; simpl; [reflexivity|exact IH]. Qed.

Lemma discs_balls (center : Vector2) (bs : list Ball) :
  discs (flat_map (drawBall center) bs)
  = List.map (fun b => (add center (pos b), radius b)) bs.
Proof. induction bs as [|b bs IH]; simpl; [reflexivity|]. f_equal. exact IH. Qed.

(** X19.  [draw] traces the vertex loop of the shape once and one disc per
    particle, in order, at the canvas centre plus the particle's position
    and with its radius.  In a frame of a polygon or a star the loop drawn
    is the loop the particles collided with, moved to the canvas centre. *)
Theorem draw_shows_state (config : SimulationConfig) (globalSettings : GlobalSettings)
    (width height : R) (st : State) :
  let center := mkV (width / 2) (height / 2) in
  outline (draw config width height st)
  = generateShape (shapeType config) (vertexCount config) (Rmin width height * 0.45)
                  center (rotation st)
  /\ discs (draw config width height st)
     = List.map (fun b => (add center (pos b), radius b)) (balls st)
  /\ (In (shapeType config) basicPolygons \/ shapeType config = "star"%string ->
      outline (snd (tick config globalSettings width height st))
      = List.map (add center) (localVertices config globalSettings width height st)).
Proof.
  cbv zeta.
  assert (Hout : forall s : State,
     outline (draw config width height s)
     = generateShape (shapeType config) (vertexCount config) (Rmin width height * 0.45)
                     (mkV (width / 2) (height / 2)) (rotation s)).
  { intros s. unfold draw. cbv zeta. rewrite !outline_app, outline_balls.
    destruct (generateShape _ _ _ _ _) as [|[px py] rest]; simpl; [reflexivity|].
    rewrite outline_app, outline_lineTo. simpl. rewrite !app_nil_r. reflexivity. }
  split; [apply Hout|]. split.
  - unfold draw. cbv zeta. rewrite !discs_app, discs_balls.
    destruct (generateShape _ _ _ _ _) as [|p0 rest]; simpl; [reflexivity|].
    rewrite discs_app, discs_lineTo. reflexivity.
  - intros Hk. unfold tick. simpl snd. rewrite Hout.
    rewrite generateShape_translate by exact Hk. reflexivity.
Qed.

End ExactExtras.

(** ** Further properties of the binary64 model *)

Module Binary64Extras.

Import Binary64 Binary64Facts.
Local Open Scope float_scope.
#[local] Set Warnings "-inexact-float".

(** *** Square roots and the clamp *)

Lemma binary_round_aux_not_below_zero (m e : Z) (l : location) :
  SFltb (binary_round_aux prec emax false m e l) (S754_zero false) = false.
Proof.
  unfold binary_round_aux.
  destruct (shr_fexp prec emax m e l) as [mrs' e'].
  destruct (shr_fexp prec emax _ e' loc_Exact) as [mrs'' e''].
  destruct (shr_m mrs'') as [|q|q]; try reflexivity.
  destruct (e'' <=? emax - prec)%Z; reflexivity.
Qed.

(** A square root is never below zero: it is NaN, a zero, or positive. *)
Lemma sqrt_not_below_zero (a : float) : (PrimFloat.sqrt a <? 0) = false.
Proof.
  rewrite FloatAxioms.ltb_spec, FloatAxioms.sqrt_spec, zero_Prim2SF.
  unfold SF64sqrt, SFsqrt.
  destruct (Prim2SF a) as [s|s| |s m e]; try reflexivity.
  - destruct s; reflexivity.
  - destruct s; [reflexivity|].
    destruct (SFsqrt_core_binary prec emax (Z.pos m) e) as [[mz ez] lz].
    apply binary_round_aux_not_below_zero.
Qed.

(** The clamp of [distPointToSegment]: the parameter is not below 0 and not
    above 1, also when the quotient is NaN. *)
Lemma clamp_within_unit (q : float) :
  let d := Math_max 0 (Math_min 1 q) in (d <? 0) = false /\ (1 <? d) = false.
Proof.
  cbv zeta. unfold Math_min. change (is_nan 1) with false. rewrite orb_false_l.
  destruct (is_nan q) eqn:Hq; [split; reflexivity|].
  destruct (1 <? q) eqn:H1; [split; reflexivity|].
  assert (Hm : (if q <? 1 then q else match classify 1 with NZero => 1 | _ => q end) = q).
  { destruct (q <? 1); reflexivity. }
  rewrite Hm. unfold Math_max. change (is_nan 0) with false. rewrite Hq. simpl orb.
  destruct (q <? 0) eqn:H0; [split; reflexivity|].
  destruct (0 <? q); [split; assumption|split; reflexivity].
Qed.

(** X7.  What [distPointToSegment] reports, for every point and every
    segment: a distance that is never below zero, and that is the length of
    the vector from the closest point to [p]; and a closest point [a + (b -
    a) * d] whose parameter [d] is neither below 0 nor above 1 (it is NaN
    for a segment from [a] to [a]).  So [dist < ball.radius] is false for a
    particle of radius 0, which the wall loop never moves. *)
Theorem distPointToSegment_clamped (p a b : Vector2) :
  let h := distPointToSegment p a b in
  (dist h <? 0) = false
  /\ dist h = mag (sub p (closest h))
  /\ (exists d : float,
        (d <? 0) = false /\ (1 <? d) = false
        /\ closest h = add a (mult (sub b a) d))
  /\ (forall (config : SimulationConfig) (globalSettings : GlobalSettings)
             (verts : list Vector2) (ball : Ball),
        radius ball = 0 -> wallCollision config globalSettings verts ball = ball).
Proof.
  cbv zeta. split; [apply sqrt_not_below_zero|]. split; [reflexivity|]. split.
  - exists (Math_max 0 (Math_min 1 (dot (sub p a) (sub b a) / dot (sub b a) (sub b a)))).
    destruct (clamp_within_unit (dot (sub p a) (sub b a) / dot (sub b a) (sub b a)))
      as [H0 H1].
    split; [exact H0|]. split; [exact H1|]. reflexivity.
  - intros config globalSettings verts ball Hr.
    apply wallCollision_skips. intros i _. rewrite Hr. apply sqrt_not_below_zero.
Qed.

(** X14.  After a tick no particle is beyond the reset distance, as the
    code tests it: [mag(pos) > shapeRadius + 200] is false for every
    particle, provided that limit is not negative.  The test is also false
    of a position with a NaN coordinate, which the reset leaves alone. *)
Theorem updatePhysics_contains (config : SimulationConfig)
    (globalSettings : GlobalSettings) (localVertices : list Vector2)
    (width height : float) (st : State) :
  let limit := shapeRadius width height + 200 in
  (limit <? 0) = false ->
  Forall (fun b : Ball => (limit <? mag (pos b)) = false)
         (balls (updatePhysics config globalSettings localVertices width height st)).
Proof.
  intros limit Hl. unfold updatePhysics. simpl balls. fold limit.
  apply List.Forall_forall. intros b Hin. apply in_map_iff in Hin as (b0 & <- & _).
  unfold safetyReset. destruct (limit <? mag (pos b0)) eqn:E; [|exact E].
  simpl pos. change (mag (mkV 0 0)) with 0. exact Hl.
Qed.

(** On a 1000 by 1000 canvas the limit is 650; the stray particle and the
    two resting ones end the tick within it. *)
Lemma updatePhysics_contains_witness :
  Forall (fun b : Ball => (650 <? mag (pos b)) = false)
         (balls (updatePhysics sampleConfig unitSettings squareLoop 1000 1000
                   (mkState (strayBall :: restingBalls) 0))).
Proof.
  apply (updatePhysics_contains sampleConfig unitSettings squareLoop 1000 1000
           (mkState (strayBall :: restingBalls) 0)).
  vm_compute. reflexivity.
Defined.

(** X20.  [effectiveSettings] passes the settings through while playing;
    while paused it sets the time scale to 0 and keeps the three
    multipliers.  With the paused settings the rotation step and the
    integration change nothing but the sign of a zero, as long as the
    products they multiply by the time scale are finite and the particle's
    velocity is finite. *)
Theorem paused_settings_freeze (config : SimulationConfig)
    (globalSettings : GlobalSettings) (rot : float) (ball : Ball) :
  let paused := effectiveSettings false globalSettings in
  effectiveSettings true globalSettings = globalSettings
  /\ timeScale paused = 0
  /\ (gravityMultiplier paused, rotationMultiplier paused, bouncinessMultiplier paused)
     = (gravityMultiplier globalSettings, rotationMultiplier globalSettings,
        bouncinessMultiplier globalSettings)
  /\ (finite (orDefault (rotationSpeed config) 0.005
              * rotationMultiplier globalSettings) = true ->
      unchanged rot (advanceRotation config paused rot))
  /\ (finite (gravity config * gravityMultiplier globalSettings) = true ->
      finite (orDefault (friction config) 0.001) = true ->
      finiteVector (vel ball) = true ->
      unchangedBall ball (integrate config paused ball)).
Proof.
  cbv zeta. split; [destruct globalSettings; reflexivity|].
  split; [reflexivity|]. split; [reflexivity|]. split.
  - intros H. apply advanceRotation_at_rest; [reflexivity|exact H].
  - intros Hg Hf Hv. apply integrate_at_rest; [reflexivity|exact Hg|exact Hf|exact Hv].
Qed.

(** A particle whose position the integrator left with a NaN coordinate
    comes out of the tick as the integrator left it. *)
Lemma updatePhysics_keeps_nan (config : SimulationConfig) (globalSettings : GlobalSettings)
    (localVertices : list Vector2) (width height : float) (st : State)
    (k : nat) (b : Ball) :
  balls st !! k = Some b ->
  hasNaN (pos (integrate config globalSettings b)) = true ->
  balls (updatePhysics config globalSettings localVertices width height st) !! k
  = Some (integrate config globalSettings b).
Proof.
  intros Hk Hi. unfold updatePhysics, afterCollisions. simpl balls.
  rewrite lookup_map.
  rewrite (ballCollision_keeps k _ (integrate config globalSettings b)); [| |exact Hi].
  - simpl. unfold safetyReset.
    rewrite ltb_nan_r by (apply hasNaN_mag; exact Hi). reflexivity.
  - rewrite lookup_map, Hk. simpl. rewrite wallCollision_nan by exact Hi. reflexivity.
Qed.

(** X22.  A NaN velocity coordinate reaches the position in the same tick:
    the particle leaves the tick with a NaN coordinate in both, whatever the
    boundary, the other particles and the settings. *)
Theorem nan_velocity_spreads (config : SimulationConfig) (globalSettings : GlobalSettings)
    (localVertices : list Vector2) (width height : float) (st : State)
    (k : nat) (b : Ball) :
  balls st !! k = Some b -> hasNaN (vel b) = true ->
  exists b' : Ball,
    balls (updatePhysics config globalSettings localVertices width height st) !! k = Some b'
    /\ hasNaN (pos b') = true /\ hasNaN (vel b') = true.
Proof.
  intros Hk Hv. exists (integrate config globalSettings b).
  assert (Hvel : hasNaN (vel (integrate config globalSettings b)) = true).
  { unfold integrate, hasNaN in *. simpl. apply orb_true_iff in Hv as [H|H].
    - rewrite (mul_nan_l _ _ H). reflexivity.
    - rewrite (mul_nan_l _ _ (add_nan_l _ _ H)). apply orb_true_r. }
  assert (Hpos : hasNaN (pos (integrate config globalSettings b)) = true).
  { unfold integrate, hasNaN in *. simpl. apply orb_true_iff in Hv as [H|H].
    - rewrite (add_nan_r _ _ (mul_nan_l _ _ (mul_nan_l _ _ H))). reflexivity.
    - rewrite (add_nan_r _ _ (mul_nan_l _ _ (mul_nan_l _ _ (add_nan_l _ _ H)))).
      apply orb_true_r. }
  split; [|split; assumption].
  apply updatePhysics_keeps_nan; assumption.
Qed.

Lemma nan_velocity_spreads_witness :
  exists b' : Ball,
    balls (updatePhysics sampleConfig unitSettings squareLoop 1000 1000
             (mkState (mkBall "0-0" (mkV 0 0) (mkV nan 0) 10 "#58a6ff" :: nil) 0)) !! 0%nat
    = Some b'
    /\ hasNaN (pos b') = true /\ hasNaN (vel b') = true.
Proof.
  apply (nan_velocity_spreads sampleConfig unitSettings squareLoop 1000 1000 _ 0%nat
           (mkBall "0-0" (mkV 0 0) (mkV nan 0) 10 "#58a6ff")); reflexivity.
Defined.

End Binary64Extras.
